(** * endon ingestor: the POST / handler of [ingestor/server.go]

    The ingestor is one HTTP route.  It checks the Content-Type header,
    reads the body, decodes it into an [ErrorReport], checks the required
    fields, builds one InfluxDB point and writes it with a blocking write.

    The handler is embedded as a program in a small state monad over a
    [World]: the wall clock, the state of the client connection, the state
    of the timeseries store, and the trace of every call the handler makes
    to a collaborator (logger, io, encoding/json, time, InfluxDB client).
    [encoding/json] is a Go library, not code of this repository: the
    handler is written over an arbitrary decoder, and [Json] below gives an
    executable model of [json.Unmarshal] for the type [ErrorReport]. *)

From stdpp Require Import base strings gmap list.
From Stdlib Require Import ZArith Ascii Lia.

Local Open Scope string_scope.
Local Open Scope list_scope.
Local Open Scope Z_scope.

(** ** Data model *)

(** [type ErrorReport struct] (server.go).  Go strings are byte sequences,
    as are Rocq's. *)
Record ErrorReport := mkReport {
  Service : string;
  Endpoint : string;
  Error : string;
  Traceback : string
}.

(** [var report ErrorReport]: the zero value. *)
Definition zero_report : ErrorReport := mkReport "" "" "" "".

(** Go [error] values the handler can meet. *)
Inductive error :=
  | IOError (msg : string)            (* from io.ReadAll *)
  | SyntaxError                       (* *json.SyntaxError *)
  | UnmarshalTypeError (value : string) (* *json.UnmarshalTypeError *)
  | StoreError (detail : string)      (* from the InfluxDB client *)
  | Canceled.                         (* context.Canceled *)

(** [context.Context]: [context.Background()] or the context of the inbound
    request, [c.Request().Context()]. *)
Inductive context_Context := Background | RequestContext.

(** A request body: the bytes the reader delivers, then EOF or an error. *)
Inductive Reader := MkReader (data : string) (err : option error).

(** [http.Request], as far as the handler looks at it. *)
Record Request := mkRequest {
  Header : gmap string (list string);
  Body : Reader
}.

(** [req.Context()]. *)
Definition Request_Context (r : Request) : context_Context := RequestContext.

(** [http.Header.Get]: the first value stored under the key, or the empty
    string.  (Get canonicalises its argument; the only key the handler
    passes, Content-Type, is in canonical form already.) *)
Definition Header_Get (h : gmap string (list string)) (key : string) : string :=
  match h !! key with
  | Some (v :: _) => v
  | _ => ""
  end.

(** [type Context struct] (server.go): the echo context with the request
    loggers and the request id the middleware generated. *)
Record Context' := mkContext {
  request : Request;
  reqid : string
}.

(** What [c.JSON(code, payload)] sends: the status code, and the Go string
    that echo serialises as the body. *)
Record Response := mkResponse {
  status : Z;
  payload : string
}.

Definition StatusOK : Z := 200.
Definition StatusBadRequest : Z := 400.
Definition StatusUnsupportedMediaType : Z := 415.
Definition StatusInternalServerError : Z := 500.

(** [write.Point]: measurement, tags, fields, timestamp.  The field map is a
    [map[string]interface{}] in the source; the handler only ever stores
    strings in it. *)
Record Point := mkPoint {
  measurement : string;
  tags : gmap string string;
  fields : gmap string string;
  timestamp : Z
}.

(** [write.NewPoint]. *)
Definition write_NewPoint (m : string) (t : gmap string string)
    (f : gmap string string) (ts : Z) : Point :=
  mkPoint m t f ts.

(** ** The world and the trace of calls *)

Inductive Level := INFO | WARNING | ERROR.

Inductive Arg := AString (s : string) | AError (e : error).

(** One call of [Printf] on a request logger. *)
Record LogLine := mkLog {
  level : Level;
  log_reqid : string;
  format : string;
  args : list Arg
}.

Inductive Event :=
  | EvLog (l : LogLine)
  | EvReadAll
  | EvUnmarshal (data : string)
  | EvNow (t : Z)
  | EvWritePoint (ctx : context_Context) (p : Point) (res : option error).

Record World := mkWorld {
  clock : Z;                     (* what time.Now() returns *)
  disconnected : bool;           (* the caller has gone away *)
  store_fault : option string;   (* the store refuses writes, with this detail *)
  persisted : list Point;        (* points the store holds *)
  trace : list Event             (* calls made so far, oldest first *)
}.

Definition emit (e : Event) (w : World) : World :=
  mkWorld (clock w) (disconnected w) (store_fault w) (persisted w) (trace w ++ [e]).

Definition persist (p : Point) (w : World) : World :=
  mkWorld (clock w) (disconnected w) (store_fault w) (persisted w ++ [p]) (trace w).

(** Several calls in a row. *)
Definition emits (es : list Event) (w : World) : World :=
  mkWorld (clock w) (disconnected w) (store_fault w) (persisted w) (trace w ++ es).

(** A context is done when it can be cancelled and its request has been
    abandoned; the background context is never done. *)
Definition ctx_done (w : World) (ctx : context_Context) : bool :=
  match ctx with
  | Background => false
  | RequestContext => disconnected w
  end.

(** ** The state monad of the handler *)

Definition M (A : Type) : Type := World -> A * World.

Definition ret {A} (a : A) : M A := fun w => (a, w).

Definition bind {A B} (m : M A) (k : A -> M B) : M B :=
  fun w => let (a, w') := m w in k a w'.

Global Instance M_ret : MRet M := @ret.
Global Instance M_bind : MBind M := fun A B k m => bind m k.

(** [log.Logger.Printf] on one of the request loggers. *)
Definition Printf (lv : Level) (cc : Context') (fmt : string) (a : list Arg) : M unit :=
  fun w => (tt, emit (EvLog (mkLog lv (reqid cc) fmt a)) w).

(** The event such a call leaves in the trace. *)
Definition logged (lv : Level) (cc : Context') (fmt : string) (a : list Arg) : Event :=
  EvLog (mkLog lv (reqid cc) fmt a).

(** [io.ReadAll]. *)
Definition io_ReadAll (r : Reader) : M (string * option error) :=
  fun w => let 'MkReader data err := r in ((data, err), emit EvReadAll w).

(** [time.Now]. *)
Definition time_Now : M Z :=
  fun w => (clock w, emit (EvNow (clock w)) w).

(** [writeAPI.WritePoint(ctx, point)], the blocking write of the InfluxDB
    client: abandoned when its context is done, refused when the store is
    faulty, and otherwise the point is persisted. *)
Definition WritePoint (ctx : context_Context) (p : Point) : M (option error) :=
  fun w =>
    if ctx_done w ctx then
      (Some Canceled, emit (EvWritePoint ctx p (Some Canceled)) w)
    else
      match store_fault w with
      | Some detail =>
          (Some (StoreError detail),
           emit (EvWritePoint ctx p (Some (StoreError detail))) w)
      | None => (None, emit (EvWritePoint ctx p None) (persist p w))
      end.

(** [c.JSON(code, payload)]. *)
Definition JSON (code : Z) (body : string) : M Response :=
  ret (mkResponse code body).

(** ** The handler *)

Definition LF : string := String (ascii_of_nat 10) "".

Definition msg_content_type : string := "Content-Type must be application/json".
Definition msg_read : string := "Error reading request body".
Definition msg_unmarshal : string := "Error unmarshalling JSON".
Definition msg_missing : string := "Missing required fields in the JSON payload".
Definition msg_write : string := "Error writing point to InfluxDB".
Definition msg_ok : string := "Error logged".

Section Handler.

(** [json.Unmarshal(body, &report)]: the report after the call, and the
    error returned. *)
Variable Unmarshal : string -> ErrorReport -> ErrorReport * option error.

Definition json_Unmarshal (data : string) (r : ErrorReport)
    : M (ErrorReport * option error) :=
  fun w => (Unmarshal data r, emit (EvUnmarshal data) w).

(** The function passed to [e.POST("/", ...)]. *)
Definition handler (cc : Context') : M Response :=
  let c := request cc in
  if negb (String.eqb (Header_Get (Header c) "Content-Type") "application/json") then
    Printf ERROR cc "Invalid Content-Type. Expected application/json, got %s"
      [AString (Header_Get (Header c) "Content-Type")];;
    JSON StatusUnsupportedMediaType msg_content_type
  else
    Printf INFO cc ("Attempting ingestion to DB" +:+ LF) [];;
    '(body, err) ← io_ReadAll (Body c);
    match err with
    | Some e =>
        Printf ERROR cc "Error reading request body: %v" [AError e];;
        JSON StatusBadRequest msg_read
    | None =>
        '(report, err) ← json_Unmarshal body zero_report;
        match err with
        | Some e =>
            Printf ERROR cc "Error unmarshalling JSON: %v" [AError e];;
            JSON StatusBadRequest msg_unmarshal
        | None =>
            if (String.eqb (Service report) "" || String.eqb (Endpoint report) ""
                || String.eqb (Error report) "")%bool then
              Printf ERROR cc "Missing required fields in the JSON payload" [];;
              JSON StatusBadRequest msg_missing
            else
              let fields : gmap string string := {[ "error" := Error report ]} in
              let fields :=
                if negb (String.eqb (Traceback report) "")
                then <[ "traceback" := Traceback report ]> fields
                else fields in
              now ← time_Now;
              let point :=
                write_NewPoint "error_logs"
                  {[ "service" := Service report; "endpoint" := Endpoint report ]}
                  fields now in
              err ← WritePoint Background point;
              match err with
              | Some e =>
                  Printf ERROR cc "Error writing point to InfluxDB: %v" [AError e];;
                  JSON StatusInternalServerError msg_write
              | None => JSON StatusOK msg_ok
              end
        end
    end.

(** ** What a run of the handler did *)

(** The value of the Content-Type header, as the handler reads it. *)
Definition content_type (cc : Context') : string :=
  Header_Get (Header (request cc)) "Content-Type".

(** The calls made during a run of the handler from the world [w]. *)
Definition events_of (cc : Context') (w : World) : list Event :=
  drop (length (trace w)) (trace (snd (handler cc w))).

(** A request that passes every check, and the report it is decoded to. *)
Definition valid (cc : Context') (r : ErrorReport) : Prop :=
  content_type cc = "application/json" /\
  (exists data, Body (request cc) = MkReader data None /\
                Unmarshal data zero_report = (r, None)) /\
  Service r <> "" /\ Endpoint r <> "" /\ Error r <> "".

(** The steps of the validation sequence, in the order of the spec. *)
Inductive step := CheckContentType | ReadBody | DecodeJSON | CheckRequired.

Definition body_data (cc : Context') : string :=
  let 'MkReader data _ := Body (request cc) in data.

Definition body_err (cc : Context') : option error :=
  let 'MkReader _ err := Body (request cc) in err.

Definition required_present (r : ErrorReport) : bool :=
  negb (String.eqb (Service r) "") && negb (String.eqb (Endpoint r) "")
  && negb (String.eqb (Error r) "").

(** Each check on its own, whatever the other checks say. *)
Definition passes (cc : Context') (s : step) : bool :=
  match s with
  | CheckContentType => String.eqb (content_type cc) "application/json"
  | ReadBody => match body_err cc with Some _ => false | None => true end
  | DecodeJSON =>
      match snd (Unmarshal (body_data cc) zero_report) with
      | Some _ => false
      | None => true
      end
  | CheckRequired => required_present (fst (Unmarshal (body_data cc) zero_report))
  end.

(** The first check of the sequence that fails, if any does. *)
Definition first_failure (cc : Context') : option step :=
  find (fun s => negb (passes cc s)) [CheckContentType; ReadBody; DecodeJSON; CheckRequired].

End Handler.

(** The response the spec gives to each failing step. *)
Definition failure_response (s : step) : Response :=
  match s with
  | CheckContentType => mkResponse StatusUnsupportedMediaType msg_content_type
  | ReadBody => mkResponse StatusBadRequest msg_read
  | DecodeJSON => mkResponse StatusBadRequest msg_unmarshal
  | CheckRequired => mkResponse StatusBadRequest msg_missing
  end.

(** The collaborators a run called, apart from the logger. *)
Inductive call := CReadAll | CUnmarshal | CNow | CWritePoint.

Definition call_of (e : Event) : option call :=
  match e with
  | EvLog _ => None
  | EvReadAll => Some CReadAll
  | EvUnmarshal _ => Some CUnmarshal
  | EvNow _ => Some CNow
  | EvWritePoint _ _ _ => Some CWritePoint
  end.

Definition calls (es : list Event) : list call := omap call_of es.

(** The calls that are made up to a failing step: the step's own call is
    the last one. *)
Definition calls_upto (s : step) : list call :=
  match s with
  | CheckContentType => []
  | ReadBody => [CReadAll]
  | DecodeJSON => [CReadAll; CUnmarshal]
  | CheckRequired => [CReadAll; CUnmarshal]
  end.

(** The writes a run attempted: context, point and outcome of each. *)
Definition write_of (e : Event) : option (context_Context * Point * option error) :=
  match e with
  | EvWritePoint ctx p res => Some (ctx, p, res)
  | _ => None
  end.

Definition write_attempts (es : list Event)
    : list (context_Context * Point * option error) :=
  omap write_of es.

(** The point of the spec for a report and a time of ingestion: the fixed
    measurement, the two tags, the error field, and the traceback field
    when the traceback is not empty. *)
Definition stored_point (r : ErrorReport) (now : Z) : Point :=
  mkPoint "error_logs"
    {[ "service" := Service r; "endpoint" := Endpoint r ]}
    (if decide (Traceback r = "")
     then {[ "error" := Error r ]}
     else {[ "error" := Error r; "traceback" := Traceback r ]})
    now.

(** A text made of white space only, and not empty. *)
Definition is_blank_char (c : ascii) : bool :=
  let n := nat_of_ascii c in
  (n =? 32)%nat || (n =? 9)%nat || (n =? 10)%nat || (n =? 13)%nat.

Definition blank (s : string) : bool :=
  negb (String.eqb s "") && forallb is_blank_char (String.list_ascii_of_string s).

(** The text with its ASCII capitals turned into small letters. *)
Definition lower_char (c : ascii) : ascii :=
  let n := nat_of_ascii c in
  if ((65 <=? n) && (n <=? 90))%nat then ascii_of_nat (n + 32) else c.

Fixpoint to_lower (s : string) : string :=
  match s with
  | EmptyString => EmptyString
  | String c rest => String (lower_char c) (to_lower rest)
  end.

(** ** encoding/json, for the type [ErrorReport]

    A model of Go's [json.Unmarshal(data, &report)]: the scanner that
    accepts or rejects the whole input ([checkValid]), the decoding of string
    literals ([unquote]), and the decoding of a JSON value into the four
    string fields of [ErrorReport].  The scanner reads one byte at a time and
    the parser one token at a time, so both are total without any fuel. *)
Module Json.

#[local] Set Warnings "-register-all".

Inductive json :=
  | JNull
  | JBool (b : bool)
  | JNumber (literal : string)
  | JString (s : string)
  | JArray (elems : list json)
  | JObject (members : list (string * json)).

Definition code (c : ascii) : Z := Z.of_N (N_of_ascii c).
Definition chr (z : Z) : ascii := ascii_of_N (Z.to_N z).

Definition between (lo hi : Z) (c : ascii) : bool :=
  (lo <=? code c) && (code c <=? hi).

Definition is_digit (c : ascii) : bool := between 48 57 c.
Definition is_digit19 (c : ascii) : bool := between 49 57 c.
Definition is_hex (c : ascii) : bool :=
  is_digit c || between 97 102 c || between 65 70 c.
Definition is_space (c : ascii) : bool :=
  Ascii.eqb c " "%char || (code c =? 9) || (code c =? 10) || (code c =? 13).

(** *** Runes and UTF-8 *)

Definition hexval (c : ascii) : Z :=
  if is_digit c then code c - 48
  else if between 97 102 c then code c - 97 + 10
  else code c - 65 + 10.

Definition hex4 (a b c d : ascii) : Z :=
  ((hexval a * 16 + hexval b) * 16 + hexval c) * 16 + hexval d.

Definition RuneError : Z := 65533.  (* U+FFFD *)

(** [utf8.AppendRune], for a rune that is valid. *)
Definition encode_rune (r : Z) : string :=
  if r <? 128 then String (chr r) ""
  else if r <? 2048 then
    String (chr (192 + r / 64)) (String (chr (128 + r mod 64)) "")
  else if r <? 65536 then
    String (chr (224 + r / 4096))
      (String (chr (128 + (r / 64) mod 64)) (String (chr (128 + r mod 64)) ""))
  else
    String (chr (240 + r / 262144))
      (String (chr (128 + (r / 4096) mod 64))
         (String (chr (128 + (r / 64) mod 64)) (String (chr (128 + r mod 64)) ""))).

Definition is_surrogate (r : Z) : bool := (55296 <=? r) && (r <? 57344).

(** [utf16.DecodeRune]. *)
Definition utf16_DecodeRune (r1 r2 : Z) : Z :=
  if (55296 <=? r1) && (r1 <? 56320) && (56320 <=? r2) && (r2 <? 57344)
  then (r1 - 55296) * 1024 + (r2 - 56320) + 65536
  else RuneError.

Definition cont (c : ascii) : bool := between 128 191 c.

(** The size of the UTF-8 sequence that starts with the byte [c] and goes
    on with [rest], as [utf8.DecodeRune] finds it; 0 when the bytes are not
    the encoding of a rune. *)
Definition utf8_size (c : ascii) (rest : string) : nat :=
  match rest with
  | String c1 rest1 =>
      if between 194 223 c then (if cont c1 then 2 else 0)%nat
      else
        let second_ok :=
          if code c =? 224 then between 160 191 c1
          else if code c =? 237 then between 128 159 c1
          else if code c =? 240 then between 144 191 c1
          else if code c =? 244 then between 128 143 c1
          else cont c1 in
        match rest1 with
        | String c2 rest2 =>
            if between 224 239 c then (if second_ok && cont c2 then 3 else 0)%nat
            else if between 240 244 c then
              match rest2 with
              | String c3 _ => (if second_ok && cont c2 && cont c3 then 4 else 0)%nat
              | EmptyString => 0%nat
              end
            else 0%nat
        | EmptyString => 0%nat
        end
  | EmptyString => 0%nat
  end.

(** The escape characters after a backslash, but [u]. *)
Definition unescape (e : ascii) : option ascii :=
  if code e =? 34 then Some e   (* the double quote *)
  else match e with
  | "\"%char => Some "\"%char
  | "/"%char => Some "/"%char
  | "b"%char => Some (chr 8)
  | "f"%char => Some (chr 12)
  | "n"%char => Some (chr 10)
  | "r"%char => Some (chr 13)
  | "t"%char => Some (chr 9)
  | _ => None
  end%char.

(** [unquoteBytes], on the bytes between the quotes of a literal the
    scanner has accepted: escapes are replaced, a lone surrogate and every
    byte that is not UTF-8 become U+FFFD. *)
Fixpoint unquote (s : string) : string :=
  match s with
  | EmptyString => EmptyString
  | String c rest =>
      if Ascii.eqb c "\"%char then
        match rest with
        | String "u" (String a (String b (String x (String d rest')))) =>
            let r := hex4 a b x d in
            if is_surrogate r then
              match rest' with
              | String "\" (String "u" (String a2 (String b2 (String x2 (String d2 rest''))))) =>
                  let dec := utf16_DecodeRune r (hex4 a2 b2 x2 d2) in
                  if dec =? RuneError
                  then (encode_rune RuneError +:+ unquote rest')%string
                  else (encode_rune dec +:+ unquote rest'')%string
              | _ => (encode_rune RuneError +:+ unquote rest')%string
              end
            else (encode_rune r +:+ unquote rest')%string
        | String e rest' =>
            match unescape e with
            | Some x => String x (unquote rest')
            | None => EmptyString
            end
        | EmptyString => EmptyString
        end
      else if code c <? 128 then String c (unquote rest)
      else
        match utf8_size c rest, rest with
        | 2%nat, String c1 r1 => String c (String c1 (unquote r1))
        | 3%nat, String c1 (String c2 r2) => String c (String c1 (String c2 (unquote r2)))
        | 4%nat, String c1 (String c2 (String c3 r3)) =>
            String c (String c1 (String c2 (String c3 (unquote r3))))
        | _, _ => (encode_rune RuneError +:+ unquote rest)%string
        end
  end.


(** *** The scanner: bytes to tokens *)

Inductive token :=
  | TLBrace | TRBrace | TLBracket | TRBracket | TColon | TComma
  | TString (s : string)     (* the literal, unquoted *)
  | TNumber (literal : string)
  | TTrue | TFalse | TNull.

(** Where the scanner is inside a number. *)
Inductive nstate :=
  | NNeg     (* after the minus sign *)
  | NZero    (* after a leading 0 *)
  | NInt     (* in the digits of the integer part *)
  | NDot     (* after the decimal point *)
  | NFrac    (* in the digits of the fraction *)
  | NE       (* after e or E *)
  | NESign   (* after the sign of the exponent *)
  | NExp.    (* in the digits of the exponent *)

Inductive lstate :=
  | LStart                                  (* between tokens *)
  | LStr (acc : list ascii)                 (* in a string; the bytes so far, last first *)
  | LEsc (acc : list ascii)                 (* after a backslash *)
  | LHex (n : nat) (acc : list ascii)       (* S n hex digits to come after \u *)
  | LLit (rest : string) (t : token)        (* in true, false or null *)
  | LNum (ns : nstate) (acc : list ascii).  (* in a number *)

Definition is_e (c : ascii) : bool := Ascii.eqb c "e"%char || Ascii.eqb c "E"%char.
Definition is_sign (c : ascii) : bool := Ascii.eqb c "+"%char || Ascii.eqb c "-"%char.

Definition num_step (ns : nstate) (c : ascii) : option nstate :=
  match ns with
  | NNeg => if Ascii.eqb c "0"%char then Some NZero
            else if is_digit19 c then Some NInt else None
  | NZero => if Ascii.eqb c "."%char then Some NDot
             else if is_e c then Some NE else None
  | NInt => if is_digit c then Some NInt
            else if Ascii.eqb c "."%char then Some NDot
            else if is_e c then Some NE else None
  | NDot => if is_digit c then Some NFrac else None
  | NFrac => if is_digit c then Some NFrac
             else if is_e c then Some NE else None
  | NE => if is_sign c then Some NESign
          else if is_digit c then Some NExp else None
  | NESign => if is_digit c then Some NExp else None
  | NExp => if is_digit c then Some NExp else None
  end.

(** The states in which a number may end. *)
Definition num_done (ns : nstate) : bool :=
  match ns with
  | NZero | NInt | NFrac | NExp => true
  | _ => false
  end.

Definition of_rev (acc : list ascii) : string := String.string_of_list_ascii (rev acc).

(** A byte seen between tokens. *)
Definition start_step (c : ascii) : option (lstate * list token) :=
  if is_space c then Some (LStart, [])
  else if code c =? 34 then Some (LStr [], [])
  else if Ascii.eqb c "0"%char then Some (LNum NZero [c], [])
  else if is_digit19 c then Some (LNum NInt [c], [])
  else
    match c with
    | "{" => Some (LStart, [TLBrace])
    | "}" => Some (LStart, [TRBrace])
    | "[" => Some (LStart, [TLBracket])
    | "]" => Some (LStart, [TRBracket])
    | ":" => Some (LStart, [TColon])
    | "," => Some (LStart, [TComma])
    | "-" => Some (LNum NNeg [c], [])
    | "t" => Some (LLit "rue" TTrue, [])
    | "f" => Some (LLit "alse" TFalse, [])
    | "n" => Some (LLit "ull" TNull, [])
    | _ => None
    end%char.

(** One byte of input: the next state and the tokens the byte completes,
    or [None] at a byte the scanner refuses. *)
Definition lex_step (st : lstate) (c : ascii) : option (lstate * list token) :=
  match st with
  | LStart => start_step c
  | LStr acc =>
      if code c =? 34 then Some (LStart, [TString (unquote (of_rev acc))])
      else if Ascii.eqb c "\"%char then Some (LEsc (c :: acc), [])
      else if code c <? 32 then None
      else Some (LStr (c :: acc), [])
  | LEsc acc =>
      if Ascii.eqb c "u"%char then Some (LHex 3 (c :: acc), [])
      else match unescape c with
           | Some _ => Some (LStr (c :: acc), [])
           | None => None
           end
  | LHex n acc =>
      if is_hex c then
        match n with
        | O => Some (LStr (c :: acc), [])
        | S n' => Some (LHex n' (c :: acc), [])
        end
      else None
  | LLit rest t =>
      match rest with
      | String e rest' =>
          if Ascii.eqb c e then
            match rest' with
            | EmptyString => Some (LStart, [t])
            | _ => Some (LLit rest' t, [])
            end
          else None
      | EmptyString => None
      end
  | LNum ns acc =>
      match num_step ns c with
      | Some ns' => Some (LNum ns' (c :: acc), [])
      | None =>
          if num_done ns then
            match start_step c with
            | Some (st', toks) => Some (st', TNumber (of_rev acc) :: toks)
            | None => None
            end
          else None
      end
  end.

(** The end of the input. *)
Definition lex_end (st : lstate) : option (list token) :=
  match st with
  | LStart => Some []
  | LNum ns acc => if num_done ns then Some [TNumber (of_rev acc)] else None
  | _ => None
  end.

Fixpoint lex (st : lstate) (s : string) : option (list token) :=
  match s with
  | EmptyString => lex_end st
  | String c rest =>
      match lex_step st c with
      | Some (st', toks) =>
          match lex st' rest with
          | Some more => Some (toks ++ more)
          | None => None
          end
      | None => None
      end
  end.

(** *** The parser: tokens to a value *)

(** An array or object that is still open. *)
Inductive frame :=
  | FArr (elems : list json)                                (* last first *)
  | FObj (members : list (string * json)) (key : option string).

Inductive pstate :=
  | PValue      (* a value must begin *)
  | PArrFirst   (* after an opening bracket: a value or the closing bracket *)
  | PObjFirst   (* after an opening brace: a key or the closing brace *)
  | PObjKey     (* after a comma in an object: a key *)
  | PColon      (* after a key: the colon *)
  | PEnd        (* after a value in an array or object: a comma or the close *)
  | PDone (v : json).  (* the top-level value is complete *)

(** [maxNestingDepth] of the scanner. *)
Definition maxNestingDepth : Z := 10000.

(** A value is complete: it is the top-level value, or goes into the
    innermost open array or object. *)
Definition complete (v : json) (stack : list frame) : option (pstate * list frame) :=
  match stack with
  | [] => Some (PDone v, [])
  | FArr acc :: st => Some (PEnd, FArr (v :: acc) :: st)
  | FObj acc (Some k) :: st => Some (PEnd, FObj ((k, v) :: acc) None :: st)
  | FObj _ None :: _ => None
  end.

Definition push (f : frame) (ps : pstate) (stack : list frame)
    : option (pstate * list frame) :=
  if Z.of_nat (length (f :: stack)) <=? maxNestingDepth
  then Some (ps, f :: stack) else None.

(** A token where a value may begin. *)
Definition begin_value (t : token) (stack : list frame) : option (pstate * list frame) :=
  match t with
  | TLBrace => push (FObj [] None) PObjFirst stack
  | TLBracket => push (FArr []) PArrFirst stack
  | TString s => complete (JString s) stack
  | TNumber n => complete (JNumber n) stack
  | TTrue => complete (JBool true) stack
  | TFalse => complete (JBool false) stack
  | TNull => complete JNull stack
  | _ => None
  end.

Definition parse_step (ps : pstate) (stack : list frame) (t : token)
    : option (pstate * list frame) :=
  match ps with
  | PValue => begin_value t stack
  | PArrFirst =>
      match t, stack with
      | TRBracket, FArr acc :: st => complete (JArray (rev acc)) st
      | TRBracket, _ => None
      | _, _ => begin_value t stack
      end
  | PObjFirst | PObjKey =>
      match t, stack with
      | TString k, FObj acc None :: st => Some (PColon, FObj acc (Some k) :: st)
      | TRBrace, FObj acc None :: st =>
          match ps with
          | PObjFirst => complete (JObject (rev acc)) st
          | _ => None
          end
      | _, _ => None
      end
  | PColon =>
      match t with
      | TColon => Some (PValue, stack)
      | _ => None
      end
  | PEnd =>
      match t, stack with
      | TComma, FArr _ :: _ => Some (PValue, stack)
      | TRBracket, FArr acc :: st => complete (JArray (rev acc)) st
      | TComma, FObj _ None :: _ => Some (PObjKey, stack)
      | TRBrace, FObj acc None :: st => complete (JObject (rev acc)) st
      | _, _ => None
      end
  | PDone _ => None
  end.

Fixpoint parse_tokens (ps : pstate) (stack : list frame) (ts : list token) : option json :=
  match ts with
  | [] => match ps with PDone v => Some v | _ => None end
  | t :: ts' =>
      match parse_step ps stack t with
      | Some (ps', stack') => parse_tokens ps' stack' ts'
      | None => None
      end
  end.

(** The value a body holds, or [None] when the body is not valid JSON. *)
Definition parse (data : string) : option json :=
  match lex LStart data with
  | Some ts => parse_tokens PValue [] ts
  | None => None
  end.

(** *** Decoding into [ErrorReport] *)

Inductive field := FService | FEndpoint | FError | FTraceback.

(** The name of each field in its [json:] tag. *)
Definition field_name (f : field) : string :=
  match f with
  | FService => "service"
  | FEndpoint => "endpoint"
  | FError => "error"
  | FTraceback => "traceback"
  end.

(** Keys are matched to field names up to case folding.  Besides the two
    cases of a letter, U+017F (long s) folds to s and U+212A (Kelvin sign)
    folds to k; no other rune folds to an ASCII letter. *)
Fixpoint fold_name (s : string) : string :=
  match s with
  | EmptyString => EmptyString
  | String c rest =>
      if between 65 90 c then String (chr (code c + 32)) (fold_name rest)
      else
        match rest with
        | String c1 rest1 =>
            if (code c =? 197) && (code c1 =? 191)
            then String "s" (fold_name rest1)
            else
              match rest1 with
              | String c2 rest2 =>
                  if (code c =? 226) && (code c1 =? 132) && (code c2 =? 170)
                  then String "k" (fold_name rest2)
                  else String c (fold_name rest)
              | EmptyString => String c (fold_name rest)
              end
        | EmptyString => String c (fold_name rest)
        end
  end.

Definition field_of_key (k : string) : option field :=
  let f := fold_name k in
  if String.eqb f "service" then Some FService
  else if String.eqb f "endpoint" then Some FEndpoint
  else if String.eqb f "error" then Some FError
  else if String.eqb f "traceback" then Some FTraceback
  else None.

Definition set_field (f : field) (s : string) (r : ErrorReport) : ErrorReport :=
  match f with
  | FService => mkReport s (Endpoint r) (Error r) (Traceback r)
  | FEndpoint => mkReport (Service r) s (Error r) (Traceback r)
  | FError => mkReport (Service r) (Endpoint r) s (Traceback r)
  | FTraceback => mkReport (Service r) (Endpoint r) (Error r) s
  end.

Definition get_field (f : field) (r : ErrorReport) : string :=
  match f with
  | FService => Service r
  | FEndpoint => Endpoint r
  | FError => Error r
  | FTraceback => Traceback r
  end.

(** The [Value] of the [UnmarshalTypeError] a value raises. *)
Definition kind (v : json) : string :=
  match v with
  | JNull => "null"
  | JBool _ => "bool"
  | JNumber _ => "number"
  | JString _ => "string"
  | JArray _ => "array"
  | JObject _ => "object"
  end.

(** [d.saveError]: the first error of a decoding is the one returned. *)
Definition saveError (saved : option error) (e : error) : option error :=
  match saved with
  | None => Some e
  | Some _ => saved
  end.

(** One member of the object.  A key that names no field is skipped with
    its value; a string is stored; null leaves the field as it is; any
    other value is a type error, and decoding goes on. *)
Definition decode_member (st : ErrorReport * option error) (m : string * json)
    : ErrorReport * option error :=
  let (r, err) := st in
  let (k, v) := m in
  match field_of_key k with
  | None => (r, err)
  | Some f =>
      match v with
      | JString s => (set_field f s r, err)
      | JNull => (r, err)
      | _ => (r, saveError err (UnmarshalTypeError (kind v)))
      end
  end.

Definition decode_members (ms : list (string * json)) (r : ErrorReport)
    : ErrorReport * option error :=
  fold_left decode_member ms (r, None).

(** [json.Unmarshal(data, &r)]. *)
Definition Unmarshal (data : string) (r : ErrorReport) : ErrorReport * option error :=
  match parse data with
  | None => (r, Some SyntaxError)
  | Some JNull => (r, None)
  | Some (JObject ms) => decode_members ms r
  | Some v => (r, Some (UnmarshalTypeError (kind v)))
  end.

End Json.

(** The handler as the server runs it. *)
Definition POST := handler Json.Unmarshal.

(** ** Building requests and bodies *)

Definition QUOTE : string := String (ascii_of_nat 34) "".

(** A JSON string literal of a text that needs no escape. *)
Definition lit (s : string) : string := QUOTE +:+ s +:+ QUOTE.

Fixpoint members_text (ms : list (string * string)) : string :=
  match ms with
  | [] => ""
  | [(k, v)] => lit k +:+ ":" +:+ v
  | (k, v) :: rest => lit k +:+ ":" +:+ v +:+ "," +:+ members_text rest
  end.

(** The text of an object with the given keys and value texts. *)
Definition object_text (ms : list (string * string)) : string :=
  "{" +:+ members_text ms +:+ "}".

Definition with_content_type (ct : string) : gmap string (list string) :=
  {[ "Content-Type" := [ct] ]}.

Definition post (ct : string) (body : string) : Context' :=
  mkContext (mkRequest (with_content_type ct) (MkReader body None)) "req0".

Definition world0 : World := mkWorld 1700000000 false None [] [].

(** The same world with the store in another state, or the caller gone. *)
Definition with_store_fault (f : option string) (w : World) : World :=
  mkWorld (clock w) (disconnected w) f (persisted w) (trace w).

Definition with_disconnected (d : bool) (w : World) : World :=
  mkWorld (clock w) d (store_fault w) (persisted w) (trace w).

(** ** Sample requests *)

Definition JSON_TYPE : string := "application/json".

(** The report of the spec's first scenario. *)
Definition body_ok : string :=
  object_text [("service", lit "api"); ("endpoint", lit "/v1/x"); ("error", lit "timeout")].

Definition report_ok : ErrorReport := mkReport "api" "/v1/x" "timeout" "".

Definition cc_ok : Context' := post JSON_TYPE body_ok.

(** The same report with a traceback. *)
Definition body_tb : string :=
  object_text [("service", lit "api"); ("endpoint", lit "/v1/x"); ("error", lit "timeout");
               ("traceback", lit "main.go:42")].

Definition report_tb : ErrorReport := mkReport "api" "/v1/x" "timeout" "main.go:42".

(** A report whose service is a single space. *)
Definition body_blank : string :=
  object_text [("service", lit " "); ("endpoint", lit "/v1/x"); ("error", lit "timeout")].

Definition report_blank : ErrorReport := mkReport " " "/v1/x" "timeout" "".

(** The report of the second scenario: the service is empty. *)
Definition body_empty_service : string :=
  object_text [("service", lit ""); ("endpoint", lit "/v1/x"); ("error", lit "timeout")].

(** A world whose store is down, and one whose caller has gone away. *)
Definition world_down : World := with_store_fault (Some "connection refused") world0.
Definition world_gone : World := with_disconnected true world0.

(** A body with a key the report does not have. *)
Definition body_extra : string :=
  object_text [("service", lit "api"); ("endpoint", lit "/v1/x"); ("error", lit "timeout");
               ("extra", "1")].

(** ** Cancellation, as the spec words it *)

(** The write is issued with the context of the request, so that it is
    abandoned, and nothing is persisted, once the caller has gone away. *)
Definition issued_with_request_context
    (U : string -> ErrorReport -> ErrorReport * option error)
    (cc : Context') (w : World) : Prop :=
  (forall ctx p res,
     In (ctx, p, res) (write_attempts (events_of U cc w)) ->
     ctx = Request_Context (request cc)) /\
  (disconnected w = true -> persisted (snd (handler U cc w)) = persisted w).

(** ** More of what a run did *)

(** The lines a run logged, oldest first. *)
Definition log_of (e : Event) : option LogLine :=
  match e with
  | EvLog l => Some l
  | _ => None
  end.

Definition logs (es : list Event) : list LogLine := omap log_of es.

Definition is_error_line (l : LogLine) : bool :=
  match level l with
  | ERROR => true
  | _ => false
  end.

Definition error_lines (es : list Event) : list LogLine :=
  List.filter is_error_line (logs es).

(** The six responses the handler has. *)
Definition responses : list Response :=
  [ mkResponse StatusOK msg_ok;
    mkResponse StatusUnsupportedMediaType msg_content_type;
    mkResponse StatusBadRequest msg_read;
    mkResponse StatusBadRequest msg_unmarshal;
    mkResponse StatusBadRequest msg_missing;
    mkResponse StatusInternalServerError msg_write ].

(** The same world at another time. *)
Definition with_clock (t : Z) (w : World) : World :=
  mkWorld t (disconnected w) (store_fault w) (persisted w) (trace w).

(** ** The middleware of [main] (server.go)

    [e.Use(...)]: a request id is generated, the three request loggers are
    made with the id in their prefix, and the next handler runs on the
    custom context. *)

Definition ESC : string := String (ascii_of_nat 27) "".

Definition Reset : string := ESC +:+ "[0m".
Definition Red : string := ESC +:+ "[31m".
Definition Green : string := ESC +:+ "[32m".
Definition Yellow : string := ESC +:+ "[33m".

(** The prefix of the logger of a level, as [fmt.Sprintf] builds it:
    ["%sINFO [%s]: %s"], ["%sWARNING [%s]: %s"], ["%sERROR [%s]: %s"]. *)
Definition logger_prefix (lv : Level) (reqId : string) : string :=
  match lv with
  | INFO => Green +:+ "INFO [" +:+ reqId +:+ "]: " +:+ Reset
  | WARNING => Yellow +:+ "WARNING [" +:+ reqId +:+ "]: " +:+ Reset
  | ERROR => Red +:+ "ERROR [" +:+ reqId +:+ "]: " +:+ Reset
  end.

(** The prefix a logged line is printed with. *)
Definition line_prefix (l : LogLine) : string := logger_prefix (level l) (log_reqid l).

(** The middleware around a handler.  [generated] is what
    [nanoid.Generate] returned; its error is dropped ([reqId, _ :=]). *)
Definition middleware (generated : string * option error)
    (next : Context' -> M Response) (c : Request) : M Response :=
  let reqId := fst generated in
  next (mkContext c reqId).

(** A request as the server handles it: the middleware, then the route. *)
Definition serve (U : string -> ErrorReport -> ErrorReport * option error)
    (generated : string * option error) (c : Request) : M Response :=
  middleware generated (handler U) c.

(** ** Start-up: [safeEnv] (functions.go) and [main] (server.go) *)

(** An organization as the InfluxDB client returns it; [Id] is a pointer. *)
Record Organization := mkOrganization {
  Id : option string;
  Name : string
}.

Inductive StartArg :=
  | SString (s : string)
  | SError (e : error)
  | SOrganization (o : Organization).

(** What the process does while it starts. *)
Inductive StartEvent :=
  | SPrintf (fmt : string) (args : list StartArg)      (* log.Printf *)
  | SFatal (fmt : string) (args : list StartArg)       (* log.Fatal, log.Fatalf *)
  | SUse                                               (* e.Use(middleware) *)
  | SNewClient (host token : string)                   (* influxdb2.NewClient *)
  | SFindOrganizationByName (ctx : context_Context) (name : string)
  | SWriteAPIBlocking (org bucket : string)
  | SPOST (path : string)                              (* e.POST *)
  | SStart (address : string).                         (* e.Start *)

(** How a piece of the start-up ends: with a value, with the exit of the
    process ([log.Fatal] exits with status 1), or with a panic. *)
Inductive outcome (A : Type) :=
  | Returned (a : A)
  | Exited (code : Z)
  | Panicked.
Arguments Returned {A} a.
Arguments Exited {A} code.
Arguments Panicked {A}.

(** A start-up computation: what it did, and how it ended. *)
Definition Proc (A : Type) : Type := list StartEvent * outcome A.

Definition proc_ret {A} (a : A) : Proc A := ([], Returned a).

Definition proc_bind {A B} (m : Proc A) (k : A -> Proc B) : Proc B :=
  match m with
  | (es, Returned a) => let (es', o) := k a in (es ++ es', o)
  | (es, Exited c) => (es, Exited c)
  | (es, Panicked) => (es, Panicked)
  end.

Global Instance Proc_ret : MRet Proc := @proc_ret.
Global Instance Proc_bind : MBind Proc := fun A B k m => proc_bind m k.

Definition did (e : StartEvent) : Proc unit := ([e], Returned tt).

(** [log.Fatalf] and [log.Fatal]: the message, then [os.Exit(1)]. *)
Definition log_Fatalf {A} (fmt : string) (args : list StartArg) : Proc A :=
  ([SFatal fmt args], Exited 1).

(** [safeEnv]: the value of a variable of the environment; the process
    exits when the variable is not set. *)
Definition safeEnv (environ : gmap string string) (env : string) : Proc string :=
  match environ !! env with
  | Some res => mret res
  | None => log_Fatalf "Missing environment variable %s" [SString env]
  end.

(** The server [main] has brought up when it calls [e.Start]. *)
Record Server := mkServer {
  client_host : string;
  client_token : string;
  organizationID : string;
  write_org : string;
  write_bucket : string
}.

Section Main.

(** [client.OrganizationsAPI().FindOrganizationByName(ctx, name)] of the
    client made for a host and a token. *)
Variable FindOrganizationByName :
  string -> string -> context_Context -> string -> Organization + error.

(** [main], up to the call of [e.Start]. *)
Definition main (environ : gmap string string) : Proc Server :=
  TOKEN ← safeEnv environ "DOCKER_INFLUXDB_TOKEN";
  HOST ← safeEnv environ "DOCKER_INFLUXDB_HOST";
  ORG ← safeEnv environ "DOCKER_INFLUXDB_ORGANIZATION";
  BUCKET ← safeEnv environ "DOCKER_INFLUXDB_BUCKET";
  did SUse;;
  did (SNewClient HOST TOKEN);;
  did (SFindOrganizationByName Background ORG);;
  match FindOrganizationByName HOST TOKEN Background ORG with
  | inr err =>
      did (SPrintf "%sERROR: Failed to lookup organization named %q: %v%s"
             [SString Red; SString ORG; SError err; SString Reset]);;
      log_Fatalf "Cannot start server without InfluxDB organization access" []
  | inl org =>
      did (SPrintf ("Organization found: %+v" +:+ LF) [SOrganization org]);;
      match Id org with
      | None => ([], Panicked)
      | Some id =>
          did (SPrintf ("Organization ID: %s" +:+ LF) [SString id]);;
          did (SWriteAPIBlocking ORG BUCKET);;
          did (SPOST "/");;
          did (SStart ":80");;
          mret (mkServer HOST TOKEN id ORG BUCKET)
      end
  end.

End Main.

(** The variables [main] reads, in the order it reads them. *)
Definition variables : list string :=
  [ "DOCKER_INFLUXDB_TOKEN"; "DOCKER_INFLUXDB_HOST";
    "DOCKER_INFLUXDB_ORGANIZATION"; "DOCKER_INFLUXDB_BUCKET" ].

(** The first of them that is not set. *)
Definition first_missing (environ : gmap string string) : option string :=
  find (fun v => match environ !! v with None => true | Some _ => false end) variables.

(** The calls to the InfluxDB client in a start-up. *)
Definition is_client_call (e : StartEvent) : bool :=
  match e with
  | SNewClient _ _ | SFindOrganizationByName _ _ | SWriteAPIBlocking _ _ => true
  | _ => false
  end.

(** Sample environment and organization service. *)
Definition environ_ok : gmap string string :=
  {[ "DOCKER_INFLUXDB_TOKEN" := "secret";
     "DOCKER_INFLUXDB_HOST" := "http://endon-db:8086";
     "DOCKER_INFLUXDB_ORGANIZATION" := "manifold";
     "DOCKER_INFLUXDB_BUCKET" := "errors" ]}.

Definition find_org_ok (host token : string) (ctx : context_Context) (name : string)
    : Organization + error :=
  inl (mkOrganization (Some "0123456789abcdef") name).

Definition find_org_down (host token : string) (ctx : context_Context) (name : string)
    : Organization + error :=
  inr (StoreError "connection refused").

(** ** Bodies and documents, for the properties of the decoder *)

(** A character that stands for itself in a JSON string literal: ASCII,
    not a control character, not the quote, not the backslash. *)
Definition plain_char (c : ascii) : bool :=
  (32 <=? Json.code c) && (Json.code c <? 128)
  && negb (Json.code c =? 34) && negb (Json.code c =? 92).

Fixpoint plain_text (s : string) : bool :=
  match s with
  | EmptyString => true
  | String c rest => plain_char c && plain_text rest
  end.

(** The body of a report whose texts are written as they are. *)
Definition report_text (r : ErrorReport) : string :=
  object_text [("service", lit (Service r)); ("endpoint", lit (Endpoint r));
               ("error", lit (Error r)); ("traceback", lit (Traceback r))].

(** The same without the traceback key. *)
Definition short_report_text (r : ErrorReport) : string :=
  object_text [("service", lit (Service r)); ("endpoint", lit (Endpoint r));
               ("error", lit (Error r))].

(** The last string given to a field by the members of an object, under
    any spelling of the name of the field. *)
Definition string_for (f : Json.field) (m : string * Json.json) : option string :=
  match Json.field_of_key m.1, m.2 with
  | Some g, Json.JString s =>
      if decide (Json.field_name g = Json.field_name f) then Some s else None
  | _, _ => None
  end.

Fixpoint last_string (f : Json.field) (ms : list (string * Json.json)) : option string :=
  match ms with
  | [] => None
  | m :: rest =>
      match last_string f rest with
      | Some s => Some s
      | None => string_for f m
      end
  end.

(** A member the decoder takes without a type error. *)
Definition well_typed (m : string * Json.json) : bool :=
  match Json.field_of_key m.1, m.2 with
  | Some _, (Json.JString _ | Json.JNull) => true
  | Some _, _ => false
  | None, _ => true
  end.

Fixpoint ascii_text (s : string) : bool :=
  match s with
  | EmptyString => true
  | String c rest => (Json.code c <? 128) && ascii_text rest
  end.

(** ** The load test (k6/k6.js): the check of a response and the loading of
    the questions

    JavaScript strings are sequences of UTF-16 code units; [length],
    [includes] and [split] work on the units. *)
Module K6.

(** The units of a text of ASCII characters. *)
Definition js (s : string) : list N := map N_of_ascii (String.list_ascii_of_string s).

Definition LF : N := 10.
Definition BAR : N := 124.

(** [const COMPLETION_INDICATORS]. *)
Definition COMPLETION_INDICATORS : list (list N) :=
  [ js "###"; js "[DONE]"; js "$\boxed{"; js "The final answer is:";
    js "The answer is:"; [LF; LF] ].

(** [s.startsWith(t)]. *)
Fixpoint starts_with (t s : list N) : bool :=
  match t, s with
  | [], _ => true
  | a :: t', b :: s' => (a =? b)%N && starts_with t' s'
  | _ :: _, [] => false
  end.

(** [s.includes(t)]. *)
Fixpoint includes (s t : list N) : bool :=
  starts_with t s ||
  match s with
  | [] => false
  | _ :: s' => includes s' t
  end.

(** [COMPLETION_INDICATORS.filter(token => responseText.includes(token))]. *)
Definition foundStopTokens (responseText : list N) : list (list N) :=
  List.filter (fun token => includes responseText token) COMPLETION_INDICATORS.

(** [isValidResponse], from the status of the response and the text put
    together from its events. *)
Definition isValidResponse (status : Z) (responseText : list N) : bool :=
  (status =? 200)
  && (0 <? length responseText)%nat
  && ((0 <? length (foundStopTokens responseText))%nat
      || (50 <? length responseText)%nat).

(** [s.split(sep)] for a separator of one unit. *)
Fixpoint split_on (sep : N) (s : list N) : list (list N) :=
  match s with
  | [] => [[]]
  | c :: s' =>
      if (c =? sep)%N then [] :: split_on sep s'
      else
        match split_on sep s' with
        | h :: t => (c :: h) :: t
        | [] => [[c]]
        end
  end.

(** [const [_, question] = line.split('|'); return question;] where
    [None] is [undefined]. *)
Definition question_of (line : list N) : option (list N) :=
  split_on BAR line !! 1%nat.

(** [q => q]: [undefined] and the empty string are falsy. *)
Definition truthy (q : option (list N)) : bool :=
  match q with
  | Some (_ :: _) => true
  | _ => false
  end.

(** The questions loaded from the content of the CSV file. *)
Definition questions (data : list N) : list (option (list N)) :=
  List.filter truthy (map question_of (split_on LF data)).

End K6.

(** * Properties *)

(** ** The world after a run *)

Lemma emit_emits e w : emit e w = emits [e] w.
Proof. reflexivity. Qed.

Lemma emits_emits es1 es2 w : emits es2 (emits es1 w) = emits (es1 ++ es2) w.
Proof. unfold emits; simpl. by rewrite <- (assoc_L (++)). Qed.

Lemma emits_persist es p w :
  trace (emits es (persist p w)) = trace w ++ es /\
  persisted (emits es (persist p w)) = persisted w ++ [p].
Proof. done. Qed.

Lemma fields_of_report (e tb : string) :
  (if negb (String.eqb tb "")
   then <[ "traceback" := tb ]> ({[ "error" := e ]} : gmap string string)
   else {[ "error" := e ]})
  = (if decide (tb = "")
     then {[ "error" := e ]}
     else {[ "error" := e; "traceback" := tb ]}).
Proof.
  by destruct (String.eqb_spec tb ""); case_decide.
Qed.

Lemma required_present_true r :
  required_present r = true <-> Service r <> "" /\ Endpoint r <> "" /\ Error r <> "".
Proof.
  unfold required_present.
  destruct (String.eqb_spec (Service r) ""), (String.eqb_spec (Endpoint r) ""),
    (String.eqb_spec (Error r) ""); simpl; intuition congruence.
Qed.

Lemma required_present_false r :
  required_present r = false <-> Service r = "" \/ Endpoint r = "" \/ Error r = "".
Proof.
  unfold required_present.
  destruct (String.eqb_spec (Service r) ""), (String.eqb_spec (Endpoint r) ""),
    (String.eqb_spec (Error r) ""); simpl; intuition congruence.
Qed.

Lemma required_check r :
  (String.eqb (Service r) "" || String.eqb (Endpoint r) "" || String.eqb (Error r) "")%bool
  = negb (required_present r).
Proof.
  unfold required_present.
  by destruct (String.eqb (Service r) ""), (String.eqb (Endpoint r) ""),
    (String.eqb (Error r) "").
Qed.

Ltac run_handler :=
  unfold handler, content_type, mbind, M_bind, bind, Printf, io_ReadAll,
    json_Unmarshal, time_Now, WritePoint, JSON, ret, logged in *.

Section Runs.

Variable U : string -> ErrorReport -> ErrorReport * option error.

(** *** One equation for each way through the handler *)

Lemma run_content_type cc w :
  content_type cc <> "application/json" ->
  handler U cc w =
    (failure_response CheckContentType,
     emits [logged ERROR cc "Invalid Content-Type. Expected application/json, got %s"
              [AString (content_type cc)]] w).
Proof.
  intros Hct. run_handler.
  destruct (String.eqb_spec (Header_Get (Header (request cc)) "Content-Type")
              "application/json"); [done|]. reflexivity.
Qed.

Lemma run_read_error cc w data e :
  content_type cc = "application/json" ->
  Body (request cc) = MkReader data (Some e) ->
  handler U cc w =
    (failure_response ReadBody,
     emits [logged INFO cc ("Attempting ingestion to DB" +:+ LF) []; EvReadAll;
            logged ERROR cc "Error reading request body: %v" [AError e]] w).
Proof.
  intros Hct Hb. run_handler. rewrite Hct, Hb. simpl.
  rewrite !emit_emits, !emits_emits. reflexivity.
Qed.

Lemma run_decode_error cc w data r e :
  content_type cc = "application/json" ->
  Body (request cc) = MkReader data None ->
  U data zero_report = (r, Some e) ->
  handler U cc w =
    (failure_response DecodeJSON,
     emits [logged INFO cc ("Attempting ingestion to DB" +:+ LF) []; EvReadAll;
            EvUnmarshal data;
            logged ERROR cc "Error unmarshalling JSON: %v" [AError e]] w).
Proof.
  intros Hct Hb Hu. run_handler. rewrite Hct, Hb. simpl. rewrite Hu.
  rewrite !emit_emits, !emits_emits. reflexivity.
Qed.

Lemma run_missing cc w data r :
  content_type cc = "application/json" ->
  Body (request cc) = MkReader data None ->
  U data zero_report = (r, None) ->
  required_present r = false ->
  handler U cc w =
    (failure_response CheckRequired,
     emits [logged INFO cc ("Attempting ingestion to DB" +:+ LF) []; EvReadAll;
            EvUnmarshal data;
            logged ERROR cc "Missing required fields in the JSON payload" []] w).
Proof.
  intros Hct Hb Hu Hreq. run_handler. rewrite Hct, Hb. simpl. rewrite Hu.
  rewrite required_check, Hreq. simpl.
  rewrite !emit_emits, !emits_emits. reflexivity.
Qed.

Lemma run_write cc w data r :
  content_type cc = "application/json" ->
  Body (request cc) = MkReader data None ->
  U data zero_report = (r, None) ->
  required_present r = true ->
  handler U cc w =
    let p := stored_point r (clock w) in
    match store_fault w with
    | None =>
        (mkResponse StatusOK msg_ok,
         emits [logged INFO cc ("Attempting ingestion to DB" +:+ LF) []; EvReadAll;
                EvUnmarshal data; EvNow (clock w); EvWritePoint Background p None]
           (persist p w))
    | Some d =>
        (mkResponse StatusInternalServerError msg_write,
         emits [logged INFO cc ("Attempting ingestion to DB" +:+ LF) []; EvReadAll;
                EvUnmarshal data; EvNow (clock w);
                EvWritePoint Background p (Some (StoreError d));
                logged ERROR cc "Error writing point to InfluxDB: %v"
                  [AError (StoreError d)]] w)
    end.
Proof.
  intros Hct Hb Hu Hreq. run_handler. rewrite Hct, Hb. simpl. rewrite Hu.
  rewrite required_check, Hreq. simpl.
  unfold write_NewPoint, stored_point. rewrite fields_of_report.
  destruct (store_fault w); simpl.
  - rewrite !emit_emits, !emits_emits. reflexivity.
  - rewrite !emit_emits. unfold emits, persist; simpl.
    by rewrite <- !(assoc_L (++)).
Qed.

End Runs.

(** ** Texts *)

Lemma append_same_empty (s x : string) : s +:+ x = s -> x = "".
Proof.
  induction s as [|c s IH]; [done|].
  intros H. apply IH. change (String c (s +:+ x) = String c s) in H. congruence.
Qed.

Lemma blank_not_empty (s : string) : blank s = true -> s <> "".
Proof.
  unfold blank. destruct (String.eqb_spec s ""); [done|]. by intros _.
Qed.

Section Claims.

Variable U : string -> ErrorReport -> ErrorReport * option error.

(** *** The calls of each run *)

Lemma events_of_run cc w resp es w0 :
  handler U cc w = (resp, emits es w0) -> trace w0 = trace w ->
  events_of U cc w = es.
Proof.
  intros Hrun Htr. unfold events_of. rewrite Hrun. simpl. rewrite Htr.
  apply drop_app_length.
Qed.

Lemma valid_inv cc r :
  valid U cc r ->
  content_type cc = "application/json" /\
  (exists data, Body (request cc) = MkReader data None /\
                U data zero_report = (r, None)) /\
  required_present r = true.
Proof.
  intros (Hct & Hbody & Hreq). by rewrite required_present_true.
Qed.

(** A valid request makes exactly the calls of the whole pipeline, and its
    one write carries the point of the spec. *)
Lemma valid_run cc r w :
  valid U cc r ->
  exists res,
    write_attempts (events_of U cc w) = [(Background, stored_point r (clock w), res)] /\
    calls (events_of U cc w) = [CReadAll; CUnmarshal; CNow; CWritePoint] /\
    res = (StoreError <$> store_fault w) /\
    fst (handler U cc w) =
      (if res is Some _ then mkResponse StatusInternalServerError msg_write
       else mkResponse StatusOK msg_ok) /\
    persisted (snd (handler U cc w)) =
      (if res is Some _ then persisted w
       else persisted w ++ [stored_point r (clock w)]).
Proof.
  intros Hv. destruct (valid_inv _ _ Hv) as (Hct & (data & Hb & Hu) & Hreq).
  pose proof (run_write U cc w data r Hct Hb Hu Hreq) as Hrun. simpl in Hrun.
  destruct (store_fault w) as [d|] eqn:Hf.
  - exists (Some (StoreError d)).
    rewrite (events_of_run _ _ _ _ _ Hrun eq_refl), Hrun. by simpl.
  - exists None.
    rewrite (events_of_run _ _ _ _ _ Hrun eq_refl), Hrun. by simpl.
Qed.

(** A run that fails the Content-Type check calls nothing but the logger. *)
Lemma mismatch_run cc w :
  content_type cc <> "application/json" ->
  fst (handler U cc w) = mkResponse StatusUnsupportedMediaType msg_content_type /\
  calls (events_of U cc w) = [] /\
  write_attempts (events_of U cc w) = [] /\
  persisted (snd (handler U cc w)) = persisted w.
Proof.
  intros Hct. pose proof (run_content_type U cc w Hct) as Hrun.
  by rewrite (events_of_run _ _ _ _ _ Hrun eq_refl), Hrun.
Qed.

(** ** The claims *)

(** C1. For every valid request the handler attempts exactly one store
    write; the response status is 200 if and only if that write succeeds
    (and then the point is persisted); when the write fails the response is
    500 with the fixed message [msg_write], whatever the error of the store
    is, so the response is the same for any two error details. *)
Theorem one_write_and_status cc r w :
  valid U cc r ->
  exists p res,
    write_attempts (events_of U cc w) = [(Background, p, res)] /\
    (status (fst (handler U cc w)) = StatusOK <-> res = None) /\
    (res = None -> persisted (snd (handler U cc w)) = persisted w ++ [p]) /\
    (forall e, res = Some e ->
       fst (handler U cc w) = mkResponse StatusInternalServerError msg_write /\
       persisted (snd (handler U cc w)) = persisted w) /\
    (forall d1 d2,
       fst (handler U cc (with_store_fault (Some d1) w)) =
       fst (handler U cc (with_store_fault (Some d2) w))).
Proof.
  intros Hv. destruct (valid_run cc r w Hv) as (res & Hw & _ & _ & Hresp & Hp).
  exists (stored_point r (clock w)), res. split; [done|].
  rewrite Hresp, Hp. split_and!.
  - by destruct res.
  - by intros ->.
  - by intros e ->.
  - intros d1 d2.
    destruct (valid_run cc r (with_store_fault (Some d1) w) Hv)
      as (r1 & _ & _ & -> & -> & _).
    destruct (valid_run cc r (with_store_fault (Some d2) w) Hv)
      as (r2 & _ & _ & -> & -> & _).
    done.
Qed.

(** C2. For every valid request the single written point has measurement
    "error_logs", tag map exactly service and endpoint of the report, the
    field "error" equal to the error of the report, and the timestamp read
    from the clock of the endpoint during the run, whatever the request
    says. *)
Theorem point_shape cc r w :
  valid U cc r ->
  exists p res,
    write_attempts (events_of U cc w) = [(Background, p, res)] /\
    measurement p = "error_logs" /\
    tags p = {[ "service" := Service r; "endpoint" := Endpoint r ]} /\
    fields p !! "error" = Some (Error r) /\
    timestamp p = clock w /\
    In (EvNow (timestamp p)) (events_of U cc w).
Proof.
  intros Hv. destruct (valid_inv _ _ Hv) as (Hct & (data & Hb & Hu) & Hreq).
  pose proof (run_write U cc w data r Hct Hb Hu Hreq) as Hrun. simpl in Hrun.
  exists (stored_point r (clock w)).
  destruct (store_fault w) as [d|];
    [exists (Some (StoreError d)) | exists None];
    rewrite (events_of_run _ _ _ _ _ Hrun eq_refl); simpl;
    (repeat split; [by unfold stored_point; simpl; case_decide | tauto]).
Qed.

(** C3. For every valid request the written point carries a "traceback"
    field if and only if the traceback of the report is not empty; when it
    is carried it equals the traceback of the report, and when the traceback
    is empty (absent keys decode to the empty string) the field map has no
    "traceback" key: it holds the error field and nothing else. *)
Theorem traceback_field cc r w :
  valid U cc r ->
  exists p res,
    write_attempts (events_of U cc w) = [(Background, p, res)] /\
    (is_Some (fields p !! "traceback") <-> Traceback r <> "") /\
    (Traceback r <> "" -> fields p !! "traceback" = Some (Traceback r)) /\
    (Traceback r = "" ->
       fields p !! "traceback" = None /\ fields p = {[ "error" := Error r ]}).
Proof.
  intros Hv. destruct (valid_run cc r w Hv) as (res & Hw & _).
  exists (stored_point r (clock w)), res. split; [done|].
  unfold stored_point; simpl. case_decide as Htb.
  - split_and!; try done. split; [|done].
    intros [x Hx]. by vm_compute in Hx.
  - by split_and!.
Qed.

(** C4. For every request with the JSON Content-Type whose body cannot be
    read, or is not valid JSON (the decoder returns an error), or decodes to
    a report in which service, endpoint or error is the empty string, the
    response status is 400, no store write is attempted and nothing is
    persisted. *)
Theorem bad_request cc w :
  content_type cc = "application/json" ->
  body_err cc <> None \/
  snd (U (body_data cc) zero_report) <> None \/
  (let r := fst (U (body_data cc) zero_report) in
   Service r = "" \/ Endpoint r = "" \/ Error r = "") ->
  status (fst (handler U cc w)) = StatusBadRequest /\
  write_attempts (events_of U cc w) = [] /\
  (forall c, In c (calls (events_of U cc w)) -> c = CReadAll \/ c = CUnmarshal) /\
  persisted (snd (handler U cc w)) = persisted w.
Proof.
  intros Hct Hbad. unfold body_err, body_data in Hbad.
  destruct (Body (request cc)) as [data [e|]] eqn:Hb.
  { pose proof (run_read_error U cc w data e Hct Hb) as Hrun.
    rewrite (events_of_run _ _ _ _ _ Hrun eq_refl), Hrun. simpl.
    split_and!; try done. simpl; intros c Hc; intuition (subst; auto). }
  destruct (U data zero_report) as [r [e|]] eqn:Hu.
  { pose proof (run_decode_error U cc w data r e Hct Hb Hu) as Hrun.
    rewrite (events_of_run _ _ _ _ _ Hrun eq_refl), Hrun. simpl.
    split_and!; try done. simpl; intros c Hc; intuition (subst; auto). }
  assert (required_present r = false) as Hreq.
  { apply required_present_false. simpl in Hbad. by destruct Hbad as [?|[?|?]]. }
  pose proof (run_missing U cc w data r Hct Hb Hu Hreq) as Hrun.
  rewrite (events_of_run _ _ _ _ _ Hrun eq_refl), Hrun. simpl.
  split_and!; try done. simpl; intros c Hc; intuition (subst; auto).
Qed.

(** C5. For every request whose Content-Type is not the JSON media type
    the response is 415, whatever the body holds and whatever the decoder
    and the store would do: the run makes no call but one to the logger, so
    no store write is attempted and nothing is persisted. *)
Theorem unsupported_media_type cc w :
  content_type cc <> "application/json" ->
  fst (handler U cc w) = mkResponse StatusUnsupportedMediaType msg_content_type /\
  calls (events_of U cc w) = [] /\
  write_attempts (events_of U cc w) = [] /\
  persisted (snd (handler U cc w)) = persisted w.
Proof. apply mismatch_run. Qed.

(** C6. The validation sequence stops at the first check that fails, in
    the order Content-Type, body read, JSON decode, required fields: the
    response is the one of the first failing check, the calls made are those
    up to that check and no later one (no clock read, no write), and nothing
    is persisted; when no check fails the whole pipeline runs.  In
    particular a request with a wrong Content-Type gets 415 even when every
    other check would pass. *)
Theorem short_circuit cc w :
  match first_failure U cc with
  | Some s =>
      fst (handler U cc w) = failure_response s /\
      calls (events_of U cc w) = calls_upto s /\
      write_attempts (events_of U cc w) = [] /\
      persisted (snd (handler U cc w)) = persisted w
  | None =>
      calls (events_of U cc w) = [CReadAll; CUnmarshal; CNow; CWritePoint]
  end /\
  (passes U cc CheckContentType = false ->
   passes U cc ReadBody = true -> passes U cc DecodeJSON = true ->
   passes U cc CheckRequired = true ->
   status (fst (handler U cc w)) = StatusUnsupportedMediaType).
Proof.
  split.
  2: { simpl. intros Hp _ _ _.
       destruct (String.eqb_spec (content_type cc) "application/json") as [|Hct]; [done|].
       by destruct (mismatch_run cc w Hct) as [-> _]. }
  unfold first_failure. simpl.
  destruct (String.eqb_spec (content_type cc) "application/json") as [Hct|Hct]; simpl.
  2: { by apply mismatch_run. }
  unfold body_err, body_data.
  destruct (Body (request cc)) as [data [e|]] eqn:Hb; simpl.
  { pose proof (run_read_error U cc w data e Hct Hb) as Hrun.
    by rewrite (events_of_run _ _ _ _ _ Hrun eq_refl), Hrun. }
  destruct (U data zero_report) as [r [e|]] eqn:Hu; simpl.
  { pose proof (run_decode_error U cc w data r e Hct Hb Hu) as Hrun.
    by rewrite (events_of_run _ _ _ _ _ Hrun eq_refl), Hrun. }
  destruct (required_present r) eqn:Hreq; simpl.
  - pose proof (run_write U cc w data r Hct Hb Hu Hreq) as Hrun. simpl in Hrun.
    destruct (store_fault w);
      by rewrite (events_of_run _ _ _ _ _ Hrun eq_refl).
  - pose proof (run_missing U cc w data r Hct Hb Hu Hreq) as Hrun.
    by rewrite (events_of_run _ _ _ _ _ Hrun eq_refl), Hrun.
Qed.

(** C8. The Content-Type is compared as a string with "application/json":
    a header that is the JSON media type followed by anything (a charset
    parameter, say), or spelled with other capitals, gets 415; the body is
    not read or decoded, and no point is written. *)
Theorem exact_content_type cc w :
  (exists suffix, suffix <> "" /\ content_type cc = "application/json" +:+ suffix) \/
  (content_type cc <> "application/json" /\
   to_lower (content_type cc) = "application/json") ->
  fst (handler U cc w) = mkResponse StatusUnsupportedMediaType msg_content_type /\
  calls (events_of U cc w) = [] /\
  write_attempts (events_of U cc w) = [] /\
  persisted (snd (handler U cc w)) = persisted w.
Proof.
  intros H. apply mismatch_run.
  destruct H as [(suffix & Hne & Hct) | [Hne _]]; [|done].
  rewrite Hct. intros Heq. by apply append_same_empty in Heq.
Qed.

(** C9. The required-field check compares with the empty string and trims
    nothing: when each of service, endpoint and error is either made of
    white space only or not empty, the request passes validation and the
    three texts are stored as they are, as the tags and the error field. *)
Theorem blank_fields_stored cc data r w :
  content_type cc = "application/json" ->
  Body (request cc) = MkReader data None ->
  U data zero_report = (r, None) ->
  blank (Service r) = true \/ Service r <> "" ->
  blank (Endpoint r) = true \/ Endpoint r <> "" ->
  blank (Error r) = true \/ Error r <> "" ->
  exists p res,
    write_attempts (events_of U cc w) = [(Background, p, res)] /\
    tags p !! "service" = Some (Service r) /\
    tags p !! "endpoint" = Some (Endpoint r) /\
    fields p !! "error" = Some (Error r).
Proof.
  intros Hct Hb Hu Hs He Hr.
  assert (Hv : valid U cc r).
  { split; [done|]. split; [by exists data|].
    split_and!; [destruct Hs | destruct He | destruct Hr]; auto using blank_not_empty. }
  destruct (valid_run cc r w Hv) as (res & Hw & _).
  exists (stored_point r (clock w)), res. split; [done|].
  unfold stored_point; simpl. by case_decide.
Qed.

(** C7, as amended.  For every valid request the store write is issued
    with the background context, which is not the context of the request and
    is never done: the outcome of the write depends on the store alone, and
    when the caller has gone away and the store is up the point is persisted
    all the same and the response is 200. *)
Theorem write_uses_background cc r w :
  valid U cc r ->
  exists p res,
    write_attempts (events_of U cc w) = [(Background, p, res)] /\
    Background <> Request_Context (request cc) /\
    ctx_done w Background = false /\
    res = (StoreError <$> store_fault w) /\
    (disconnected w = true -> store_fault w = None ->
     persisted (snd (handler U cc w)) = persisted w ++ [p] /\
     status (fst (handler U cc w)) = StatusOK).
Proof.
  intros Hv. destruct (valid_run cc r w Hv) as (res & Hw & _ & Hres & Hresp & Hp).
  exists (stored_point r (clock w)), res. split_and!; try done.
  intros _ Hup. rewrite Hresp, Hp, Hres, Hup. done.
Qed.

(** The response to a readable body with the JSON Content-Type is a
    function of what the decoder returns for the body. *)
Lemma response_by_decoding cc cc' data data' w :
  content_type cc = content_type cc' ->
  Body (request cc) = MkReader data None ->
  Body (request cc') = MkReader data' None ->
  U data zero_report = U data' zero_report ->
  fst (handler U cc w) = fst (handler U cc' w).
Proof.
  intros Hct Hb Hb' Hu.
  destruct (String.eqb_spec (content_type cc) "application/json") as [Hj|Hj].
  2: { rewrite !run_content_type; [done|congruence|done]. }
  assert (Hj' : content_type cc' = "application/json") by congruence.
  destruct (U data zero_report) as [r [e|]] eqn:Hd; symmetry in Hu.
  { by rewrite (run_decode_error U cc w data r e), (run_decode_error U cc' w data' r e). }
  destruct (required_present r) eqn:Hreq.
  - rewrite (run_write U cc w data r), (run_write U cc' w data' r) by done.
    simpl. by destruct (store_fault w).
  - by rewrite (run_missing U cc w data r), (run_missing U cc' w data' r).
Qed.

End Claims.

(** ** The decoder *)

Lemma decode_member_unknown st k v :
  Json.field_of_key k = None -> Json.decode_member st (k, v) = st.
Proof. intros Hk. destruct st as [r err]. simpl. by rewrite Hk. Qed.

Lemma decode_skips_unknown ms1 ms2 k v r :
  Json.field_of_key k = None ->
  Json.decode_members (ms1 ++ (k, v) :: ms2) r = Json.decode_members (ms1 ++ ms2) r.
Proof.
  intros Hk. unfold Json.decode_members.
  rewrite !fold_left_app. simpl fold_left at 1.
  by rewrite decode_member_unknown.
Qed.

Lemma decode_all_unknown ms st :
  Forall (fun m => Json.field_of_key m.1 = None) ms ->
  fold_left Json.decode_member ms st = st.
Proof.
  intros Hall. revert st.
  induction Hall as [|[k v] ms Hk _ IH]; intros st; [done|].
  simpl fold_left. rewrite decode_member_unknown by done. apply IH.
Qed.

Lemma parse_null : Json.parse "null" = Some Json.JNull.
Proof. by vm_compute. Qed.

Lemma Unmarshal_null r : Json.Unmarshal "null" r = (r, None).
Proof. unfold Json.Unmarshal. by rewrite parse_null. Qed.

(** A body that is not valid JSON is refused by the decoder. *)
Lemma invalid_json_error data r :
  Json.parse data = None -> Json.Unmarshal data r = (r, Some SyntaxError).
Proof. unfold Json.Unmarshal. by intros ->. Qed.

(** Members that do not name the field [f] leave it as it was. *)
Lemma decode_keeps_field f ms st :
  Forall (fun m => Json.field_of_key m.1 <> Some f) ms ->
  Json.get_field f (fold_left Json.decode_member ms st).1 = Json.get_field f st.1.
Proof.
  intros Hall. revert st.
  induction Hall as [|[k v] ms Hk _ IH]; intros [r err]; [done|].
  simpl fold_left. rewrite IH. simpl in *.
  destruct (Json.field_of_key k) as [g|]; [|done].
  destruct v; try done. by destruct f, g.
Qed.

(** A field absent from the object is the empty string after decoding. *)
Lemma absent_key_empty_field f data ms :
  Json.parse data = Some (Json.JObject ms) ->
  Forall (fun m => Json.field_of_key m.1 <> Some f) ms ->
  Json.get_field f (Json.Unmarshal data zero_report).1 = "".
Proof.
  intros Hp Hall. unfold Json.Unmarshal, Json.decode_members. rewrite Hp.
  rewrite decode_keeps_field by done. by destruct f.
Qed.

(** C10. Bodies are decoded permissively.  A member whose key names no
    field of the report is skipped, wherever it stands in the object and
    whatever its value is, so the response is the one the body without that
    member gets; the body null decodes without error and leaves the report
    as it was.  Hence the body null, and an object with unknown keys only,
    pass the decoding step and are refused by the required-field check, with
    400 and the message of the missing fields, not the one of the malformed
    JSON. *)
Theorem permissive_decoding :
  (forall ms1 ms2 k v r,
     Json.field_of_key k = None ->
     Json.decode_members (ms1 ++ (k, v) :: ms2) r = Json.decode_members (ms1 ++ ms2) r) /\
  (forall cc cc' data data' ms1 ms2 k v w,
     content_type cc = content_type cc' ->
     Body (request cc) = MkReader data None ->
     Body (request cc') = MkReader data' None ->
     Json.parse data = Some (Json.JObject (ms1 ++ (k, v) :: ms2)) ->
     Json.parse data' = Some (Json.JObject (ms1 ++ ms2)) ->
     Json.field_of_key k = None ->
     fst (POST cc w) = fst (POST cc' w)) /\
  (forall r, Json.Unmarshal "null" r = (r, None)) /\
  (forall cc w,
     content_type cc = "application/json" ->
     Body (request cc) = MkReader "null" None ->
     fst (POST cc w) = mkResponse StatusBadRequest msg_missing) /\
  (forall cc w data ms,
     content_type cc = "application/json" ->
     Body (request cc) = MkReader data None ->
     Json.parse data = Some (Json.JObject ms) ->
     Forall (fun m => Json.field_of_key m.1 = None) ms ->
     fst (POST cc w) = mkResponse StatusBadRequest msg_missing) /\
  msg_missing <> msg_unmarshal.
Proof.
  split_and!.
  - apply decode_skips_unknown.
  - intros cc cc' data data' ms1 ms2 k v w Hct Hb Hb' Hp Hp' Hk.
    apply (response_by_decoding Json.Unmarshal cc cc' data data'); try done.
    unfold Json.Unmarshal. rewrite Hp, Hp'. by apply decode_skips_unknown.
  - apply Unmarshal_null.
  - intros cc w Hct Hb. unfold POST.
    by rewrite (run_missing Json.Unmarshal cc w "null" zero_report Hct Hb
                  (Unmarshal_null zero_report) eq_refl).
  - intros cc w data ms Hct Hb Hp Hall. unfold POST.
    rewrite (run_missing Json.Unmarshal cc w data zero_report Hct Hb); try done.
    unfold Json.Unmarshal, Json.decode_members. rewrite Hp.
    by apply decode_all_unknown.
  - done.
Qed.

(** ** The scenarios of the spec, and instances of the claims *)

Ltac prove_valid data :=
  split; [by vm_compute |];
  split; [exists data; split; [reflexivity | by vm_compute] | by split_and!].

(** A report with the three required fields and the JSON Content-Type:
    200, one point with the two tags and the error field, no traceback. *)
Example scenario_ok :
  fst (POST cc_ok world0) = mkResponse 200 "Error logged" /\
  persisted (snd (POST cc_ok world0)) =
    [mkPoint "error_logs" {[ "service" := "api"; "endpoint" := "/v1/x" ]}
       {[ "error" := "timeout" ]} 1700000000].
Proof. by vm_compute. Qed.

(** An empty service: 400, no point. *)
Example scenario_empty_service :
  fst (POST (post JSON_TYPE body_empty_service) world0) = mkResponse 400 msg_missing /\
  persisted (snd (POST (post JSON_TYPE body_empty_service) world0)) = [].
Proof. by vm_compute. Qed.

(** A body that is not JSON: 400, no point. *)
Example scenario_not_json :
  fst (POST (post JSON_TYPE "not-json") world0) = mkResponse 400 msg_unmarshal /\
  persisted (snd (POST (post JSON_TYPE "not-json") world0)) = [].
Proof. by vm_compute. Qed.

(** A valid body with Content-Type text/plain: 415, no point. *)
Example scenario_text_plain :
  fst (POST (post "text/plain" body_ok) world0) = mkResponse 415 msg_content_type /\
  persisted (snd (POST (post "text/plain" body_ok) world0)) = [].
Proof. by vm_compute. Qed.

(** The JSON media type in other capitals: 415, no point. *)
Example scenario_capitals :
  to_lower "Application/JSON" = "application/json" /\
  fst (POST (post "Application/JSON" body_ok) world0) = mkResponse 415 msg_content_type /\
  persisted (snd (POST (post "Application/JSON" body_ok) world0)) = [].
Proof. by vm_compute. Qed.

(** A required key that is absent: 400, the message of the missing fields. *)
Example scenario_absent_service :
  fst (POST (post JSON_TYPE
               (object_text [("endpoint", lit "/v1/x"); ("error", lit "timeout")])) world0)
    = mkResponse 400 msg_missing.
Proof. by vm_compute. Qed.

(** The store is down: 500 and the fixed message. *)
Example scenario_store_down :
  fst (POST cc_ok world_down) = mkResponse 500 "Error writing point to InfluxDB" /\
  persisted (snd (POST cc_ok world_down)) = [].
Proof. by vm_compute. Qed.

(** Keys are matched whatever their case. *)
Example scenario_capital_key :
  Json.Unmarshal
    (object_text [("SERVICE", lit "api"); ("Endpoint", lit "/v1/x"); ("error", lit "timeout")])
    zero_report = (report_ok, None).
Proof. by vm_compute. Qed.

Lemma one_write_and_status_witness :
  valid Json.Unmarshal cc_ok report_ok /\
  exists p res,
    write_attempts (events_of Json.Unmarshal cc_ok world_down) = [(Background, p, res)] /\
    (status (fst (handler Json.Unmarshal cc_ok world_down)) = StatusOK <-> res = None) /\
    (res = None ->
     persisted (snd (handler Json.Unmarshal cc_ok world_down)) = persisted world_down ++ [p]) /\
    (forall e, res = Some e ->
       fst (handler Json.Unmarshal cc_ok world_down)
         = mkResponse StatusInternalServerError msg_write /\
       persisted (snd (handler Json.Unmarshal cc_ok world_down)) = persisted world_down) /\
    (forall d1 d2,
       fst (handler Json.Unmarshal cc_ok (with_store_fault (Some d1) world_down)) =
       fst (handler Json.Unmarshal cc_ok (with_store_fault (Some d2) world_down))).
Proof.
  assert (Hv : valid Json.Unmarshal cc_ok report_ok) by prove_valid body_ok.
  split; [exact Hv|].
  exact (one_write_and_status Json.Unmarshal cc_ok report_ok world_down Hv).
Defined.

Lemma point_shape_witness :
  valid Json.Unmarshal cc_ok report_ok /\
  exists p res,
    write_attempts (events_of Json.Unmarshal cc_ok world0) = [(Background, p, res)] /\
    measurement p = "error_logs" /\
    tags p = {[ "service" := Service report_ok; "endpoint" := Endpoint report_ok ]} /\
    fields p !! "error" = Some (Error report_ok) /\
    timestamp p = clock world0 /\
    In (EvNow (timestamp p)) (events_of Json.Unmarshal cc_ok world0).
Proof.
  assert (Hv : valid Json.Unmarshal cc_ok report_ok) by prove_valid body_ok.
  split; [exact Hv|].
  exact (point_shape Json.Unmarshal cc_ok report_ok world0 Hv).
Defined.

Lemma traceback_field_witness :
  valid Json.Unmarshal (post JSON_TYPE body_tb) report_tb /\
  exists p res,
    write_attempts (events_of Json.Unmarshal (post JSON_TYPE body_tb) world0)
      = [(Background, p, res)] /\
    (is_Some (fields p !! "traceback") <-> Traceback report_tb <> "") /\
    (Traceback report_tb <> "" -> fields p !! "traceback" = Some (Traceback report_tb)) /\
    (Traceback report_tb = "" ->
       fields p !! "traceback" = None /\ fields p = {[ "error" := Error report_tb ]}).
Proof.
  assert (Hv : valid Json.Unmarshal (post JSON_TYPE body_tb) report_tb)
    by prove_valid body_tb.
  split; [exact Hv|].
  exact (traceback_field Json.Unmarshal (post JSON_TYPE body_tb) report_tb world0 Hv).
Defined.

Lemma bad_request_witness :
  content_type (post JSON_TYPE "not-json") = "application/json" /\
  snd (Json.Unmarshal (body_data (post JSON_TYPE "not-json")) zero_report) <> None /\
  status (fst (handler Json.Unmarshal (post JSON_TYPE "not-json") world0)) = StatusBadRequest /\
  write_attempts (events_of Json.Unmarshal (post JSON_TYPE "not-json") world0) = [] /\
  (forall c, In c (calls (events_of Json.Unmarshal (post JSON_TYPE "not-json") world0)) ->
             c = CReadAll \/ c = CUnmarshal) /\
  persisted (snd (handler Json.Unmarshal (post JSON_TYPE "not-json") world0))
    = persisted world0.
Proof.
  assert (Hct : content_type (post JSON_TYPE "not-json") = "application/json")
    by (by vm_compute).
  assert (Hbad : snd (Json.Unmarshal (body_data (post JSON_TYPE "not-json")) zero_report)
                 <> None) by (by vm_compute).
  split; [exact Hct|]. split; [exact Hbad|].
  exact (bad_request Json.Unmarshal (post JSON_TYPE "not-json") world0 Hct
           (or_intror (or_introl Hbad))).
Defined.

Lemma unsupported_media_type_witness :
  content_type (post "text/plain" body_ok) <> "application/json" /\
  fst (handler Json.Unmarshal (post "text/plain" body_ok) world0)
    = mkResponse StatusUnsupportedMediaType msg_content_type /\
  calls (events_of Json.Unmarshal (post "text/plain" body_ok) world0) = [] /\
  write_attempts (events_of Json.Unmarshal (post "text/plain" body_ok) world0) = [] /\
  persisted (snd (handler Json.Unmarshal (post "text/plain" body_ok) world0))
    = persisted world0.
Proof.
  assert (Hct : content_type (post "text/plain" body_ok) <> "application/json")
    by (by vm_compute).
  split; [exact Hct|].
  exact (unsupported_media_type Json.Unmarshal (post "text/plain" body_ok) world0 Hct).
Defined.

Lemma short_circuit_witness :
  passes Json.Unmarshal (post "text/plain" body_ok) CheckContentType = false /\
  passes Json.Unmarshal (post "text/plain" body_ok) CheckRequired = true /\
  status (fst (handler Json.Unmarshal (post "text/plain" body_ok) world0))
    = StatusUnsupportedMediaType.
Proof.
  split; [by vm_compute|]. split; [by vm_compute|].
  apply (proj2 (short_circuit Json.Unmarshal (post "text/plain" body_ok) world0));
    by vm_compute.
Defined.

Lemma exact_content_type_witness :
  content_type (post "application/json; charset=utf-8" body_ok)
    = "application/json" +:+ "; charset=utf-8" /\
  fst (handler Json.Unmarshal (post "application/json; charset=utf-8" body_ok) world0)
    = mkResponse StatusUnsupportedMediaType msg_content_type /\
  calls (events_of Json.Unmarshal (post "application/json; charset=utf-8" body_ok) world0)
    = [] /\
  write_attempts
    (events_of Json.Unmarshal (post "application/json; charset=utf-8" body_ok) world0) = [] /\
  persisted (snd (handler Json.Unmarshal (post "application/json; charset=utf-8" body_ok)
                    world0)) = persisted world0.
Proof.
  assert (Hct : content_type (post "application/json; charset=utf-8" body_ok)
                = "application/json" +:+ "; charset=utf-8") by (by vm_compute).
  split; [exact Hct|].
  apply (exact_content_type Json.Unmarshal
           (post "application/json; charset=utf-8" body_ok) world0).
  left. exists "; charset=utf-8". split; [discriminate | exact Hct].
Defined.

Lemma blank_fields_stored_witness :
  blank (Service report_blank) = true /\
  exists p res,
    write_attempts (events_of Json.Unmarshal (post JSON_TYPE body_blank) world0)
      = [(Background, p, res)] /\
    tags p !! "service" = Some (Service report_blank) /\
    tags p !! "endpoint" = Some (Endpoint report_blank) /\
    fields p !! "error" = Some (Error report_blank).
Proof.
  split; [by vm_compute|].
  apply (blank_fields_stored Json.Unmarshal (post JSON_TYPE body_blank) body_blank
           report_blank world0).
  - by vm_compute.
  - reflexivity.
  - by vm_compute.
  - left. by vm_compute.
  - right. discriminate.
  - right. discriminate.
Defined.

Lemma write_uses_background_witness :
  valid Json.Unmarshal cc_ok report_ok /\
  exists p res,
    write_attempts (events_of Json.Unmarshal cc_ok world_gone) = [(Background, p, res)] /\
    Background <> Request_Context (request cc_ok) /\
    ctx_done world_gone Background = false /\
    res = (StoreError <$> store_fault world_gone) /\
    (disconnected world_gone = true -> store_fault world_gone = None ->
     persisted (snd (handler Json.Unmarshal cc_ok world_gone)) = persisted world_gone ++ [p] /\
     status (fst (handler Json.Unmarshal cc_ok world_gone)) = StatusOK).
Proof.
  assert (Hv : valid Json.Unmarshal cc_ok report_ok) by prove_valid body_ok.
  split; [exact Hv|].
  exact (write_uses_background Json.Unmarshal cc_ok report_ok world_gone Hv).
Defined.

(** C7, as the claim states it, fails: the caller of this valid request has
    gone away, and yet the write is issued with the background context, is
    not abandoned, and the point is persisted. *)
Lemma write_ignores_request_context :
  valid Json.Unmarshal cc_ok report_ok /\
  disconnected world_gone = true /\
  ~ issued_with_request_context Json.Unmarshal cc_ok world_gone /\
  (write_attempts (events_of Json.Unmarshal cc_ok world_gone)).*1.*1 = [Background] /\
  Background <> Request_Context (request cc_ok) /\
  persisted (snd (handler Json.Unmarshal cc_ok world_gone))
    = [stored_point report_ok (clock world_gone)].
Proof.
  split; [prove_valid body_ok|]. split; [done|]. split.
  - intros [Hctx Hgone].
    specialize (Hgone eq_refl). by vm_compute in Hgone.
  - by vm_compute.
Qed.

Lemma permissive_decoding_witness :
  Json.field_of_key "extra" = None /\
  fst (POST (post JSON_TYPE body_extra) world0) = fst (POST (post JSON_TYPE body_ok) world0) /\
  fst (POST (post JSON_TYPE "null") world0) = mkResponse StatusBadRequest msg_missing.
Proof.
  assert (Hk : Json.field_of_key "extra" = None) by (by vm_compute).
  split; [exact Hk|]. split.
  - apply (proj1 (proj2 permissive_decoding) (post JSON_TYPE body_extra)
             (post JSON_TYPE body_ok) body_extra body_ok
             [("service", Json.JString "api"); ("endpoint", Json.JString "/v1/x");
              ("error", Json.JString "timeout")] [] "extra" (Json.JNumber "1") world0);
      by vm_compute.
  - apply (proj1 (proj2 (proj2 (proj2 permissive_decoding)))); by vm_compute.
Defined.

(** * More properties of the ingestor *)

(** Every way through the handler, with the calls of the run in the goal. *)
Ltac all_paths U cc w :=
  let Hct := fresh "Hct" in
  let Hb := fresh "Hb" in
  let Hu := fresh "Hu" in
  let Hreq := fresh "Hreq" in
  let Hrun := fresh "Hrun" in
  let data := fresh "data" in
  let e := fresh "e" in
  let r := fresh "r" in
  destruct (String.eqb_spec (content_type cc) "application/json") as [Hct|Hct];
  [ destruct (Body (request cc)) as [data [e|]] eqn:Hb;
    [ pose proof (run_read_error U cc w data e Hct Hb) as Hrun
    | destruct (U data zero_report) as [r [e|]] eqn:Hu;
      [ pose proof (run_decode_error U cc w data r e Hct Hb Hu) as Hrun
      | destruct (required_present r) eqn:Hreq;
        [ pose proof (run_write U cc w data r Hct Hb Hu Hreq) as Hrun;
          simpl in Hrun; destruct (store_fault w) eqn:?
        | pose proof (run_missing U cc w data r Hct Hb Hu Hreq) as Hrun ] ] ]
  | pose proof (run_content_type U cc w Hct) as Hrun ];
  rewrite ?(events_of_run U _ _ _ _ _ Hrun eq_refl), ?Hrun.

Section Requests.

Variable U : string -> ErrorReport -> ErrorReport * option error.

(** X1. Every line logged while a request is served carries the request
    id the middleware generated for it, in the prefix of its level. *)
Theorem request_id_on_every_line generated c w :
  Forall (fun l => log_reqid l = fst generated /\
                   line_prefix l = logger_prefix (level l) (fst generated))
    (logs (drop (length (trace w)) (trace (snd (serve U generated c w))))).
Proof.
  change (Forall (fun l => log_reqid l = fst generated /\
                     line_prefix l = logger_prefix (level l) (fst generated))
            (logs (events_of U (mkContext c (fst generated)) w))).
  all_paths U (mkContext c (fst generated)) w; simpl;
    repeat (constructor; [by split|]); constructor.
Qed.

(** X2. The response is 200 exactly when the run logged no line at the
    level of errors; every other response comes with exactly one such
    line. *)
Theorem error_line_iff_failure cc w :
  (status (fst (handler U cc w)) = StatusOK <-> error_lines (events_of U cc w) = []) /\
  (status (fst (handler U cc w)) <> StatusOK ->
   exists l, error_lines (events_of U cc w) = [l]).
Proof.
  all_paths U cc w; simpl; (split; [by split | intros H; first [done | by eexists]]).
Qed.

(** X3. Whatever the request, the decoder and the store do, the response
    is one of six fixed pairs of status and text, and the text alone tells
    which one: no two of them share their text. *)
Theorem response_is_one_of_six cc w :
  In (fst (handler U cc w)) responses /\
  (forall r1 r2, In r1 responses -> In r2 responses ->
                 payload r1 = payload r2 -> r1 = r2).
Proof.
  split.
  - all_paths U cc w; simpl; tauto.
  - intros r1 r2 H1 H2. simpl in H1, H2.
    repeat (destruct H1 as [<-|H1]); try done;
      repeat (destruct H2 as [<-|H2]); try done.
Qed.

Lemma run_frame cc w :
  clock (snd (handler U cc w)) = clock w /\
  disconnected (snd (handler U cc w)) = disconnected w /\
  store_fault (snd (handler U cc w)) = store_fault w /\
  trace (snd (handler U cc w)) = trace w ++ events_of U cc w /\
  (status (fst (handler U cc w)) = StatusOK ->
   exists p, persisted (snd (handler U cc w)) = persisted w ++ [p]) /\
  (status (fst (handler U cc w)) <> StatusOK ->
   persisted (snd (handler U cc w)) = persisted w).
Proof.
  all_paths U cc w; simpl; split_and!; try done; intros _; by eexists.
Qed.

(** X4. A run leaves the clock, the connection and the state of the store
    as they were and only adds to the trace; it persists one point when it
    answers 200, and nothing otherwise. *)
Theorem handler_frame cc w :
  let w' := snd (handler U cc w) in
  clock w' = clock w /\ disconnected w' = disconnected w /\
  store_fault w' = store_fault w /\
  trace w' = trace w ++ events_of U cc w /\
  (status (fst (handler U cc w)) = StatusOK ->
   exists p, persisted w' = persisted w ++ [p]) /\
  (status (fst (handler U cc w)) <> StatusOK -> persisted w' = persisted w).
Proof. apply run_frame. Qed.

(** X5. The response depends on the request and on the state of the store
    only: not on the request id, the clock, the connection, the points
    already persisted or the calls made before. *)
Theorem response_depends_on_request_and_store cc cc' w w' :
  request cc = request cc' ->
  store_fault w = store_fault w' ->
  fst (handler U cc w) = fst (handler U cc' w').
Proof.
  intros Hreq Hsf.
  assert (Hc : content_type cc' = content_type cc) by (unfold content_type; by rewrite Hreq).
  all_paths U cc w.
  - by rewrite (run_read_error U cc' w' data e); rewrite <- ?Hreq, ?Hc.
  - by rewrite (run_decode_error U cc' w' data r e); rewrite <- ?Hreq, ?Hc.
  - rewrite (run_write U cc' w' data r); rewrite <- ?Hreq, ?Hc; try done.
    simpl. by rewrite <- Hsf.
  - rewrite (run_write U cc' w' data r); rewrite <- ?Hreq, ?Hc; try done.
    simpl. by rewrite <- Hsf.
  - by rewrite (run_missing U cc' w' data r); rewrite <- ?Hreq, ?Hc.
  - by rewrite (run_content_type U cc' w'); rewrite ?Hc.
Qed.

(** X6. Requests are not deduplicated: when the same valid request is
    served twice with the store up, two points are persisted, each with the
    time of its own run, and both responses are 200. *)
Theorem two_requests_two_points cc r w t :
  valid U cc r ->
  store_fault w = None ->
  let w1 := with_clock t (snd (handler U cc w)) in
  persisted (snd (handler U cc w1)) =
    persisted w ++ [stored_point r (clock w); stored_point r t] /\
  status (fst (handler U cc w)) = StatusOK /\
  status (fst (handler U cc w1)) = StatusOK.
Proof.
  intros Hv Hup. simpl.
  destruct (valid_run U cc r w Hv) as (res & _ & _ & Hres & Hresp & Hp).
  rewrite Hup in Hres. simpl in Hres. subst res.
  destruct (run_frame cc w) as (_ & _ & Hsf & _).
  destruct (valid_run U cc r (with_clock t (snd (handler U cc w))) Hv)
    as (res & _ & _ & Hres & Hresp1 & Hp1).
  simpl in Hres. rewrite Hsf, Hup in Hres. simpl in Hres. subst res.
  rewrite Hresp, Hresp1, Hp1. simpl. rewrite Hp.
  by rewrite <- (assoc_L (++)).
Qed.

(** X7. Of several values of the Content-Type header only the first
    counts: the response is 415 exactly when the first value is not
    "application/json", and always when the header is absent or has no
    value. *)
Theorem first_content_type_value_counts cc w :
  match Header (request cc) !! "Content-Type" with
  | Some (v :: _) =>
      status (fst (handler U cc w)) = StatusUnsupportedMediaType <-> v <> "application/json"
  | _ => status (fst (handler U cc w)) = StatusUnsupportedMediaType
  end.
Proof.
  assert (H : status (fst (handler U cc w)) = StatusUnsupportedMediaType <->
              content_type cc <> "application/json").
  { all_paths U cc w; simpl; by split. }
  unfold content_type, Header_Get in H.
  destruct (Header (request cc) !! "Content-Type") as [[|v vs]|]; [| done |];
    by apply H.
Qed.

End Requests.

Lemma response_depends_on_request_and_store_witness :
  request cc_ok = request (mkContext (request cc_ok) "other-id") /\
  store_fault world0 = store_fault (with_clock 5 world_gone) /\
  fst (handler Json.Unmarshal cc_ok world0)
    = fst (handler Json.Unmarshal (mkContext (request cc_ok) "other-id")
             (with_clock 5 world_gone)).
Proof.
  split; [reflexivity|]. split; [reflexivity|].
  exact (response_depends_on_request_and_store Json.Unmarshal cc_ok
           (mkContext (request cc_ok) "other-id") world0 (with_clock 5 world_gone)
           eq_refl eq_refl).
Defined.

Lemma two_requests_two_points_witness :
  valid Json.Unmarshal cc_ok report_ok /\
  store_fault world0 = None /\
  persisted (snd (handler Json.Unmarshal cc_ok
                    (with_clock 1700000060 (snd (handler Json.Unmarshal cc_ok world0)))))
    = persisted world0 ++ [stored_point report_ok (clock world0);
                           stored_point report_ok 1700000060].
Proof.
  assert (Hv : valid Json.Unmarshal cc_ok report_ok)
    by (split; [by vm_compute |];
        split; [exists body_ok; split; [reflexivity | by vm_compute] | by split_and!]).
  split; [exact Hv|]. split; [reflexivity|].
  exact (proj1 (two_requests_two_points Json.Unmarshal cc_ok report_ok world0 1700000060
                  Hv eq_refl)).
Defined.

(** ** The prefixes of the request loggers *)

Lemma append_inj_r (s s' x : string) : s +:+ x = s' +:+ x -> s = s'.
Proof.
  intros H.
  assert (Hl : forall a b, String.list_ascii_of_string (a +:+ b) =
                           String.list_ascii_of_string a ++ String.list_ascii_of_string b).
  { intros a b. induction a as [|c a IH]; [done|].
    change (String c a +:+ b) with (String c (a +:+ b)). simpl. by rewrite IH. }
  apply (f_equal String.list_ascii_of_string) in H. rewrite !Hl in H.
  apply app_inv_tail in H.
  rewrite <- (String.string_of_list_ascii_of_string s),
    <- (String.string_of_list_ascii_of_string s'). by rewrite H.
Qed.

(** X8. The prefix of a request logger tells the level and the request
    id: two prefixes are equal only for the same level and the same id. *)
Theorem prefix_identifies_line lv lv' id id' :
  logger_prefix lv id = logger_prefix lv' id' -> lv = lv' /\ id = id'.
Proof.
  destruct lv, lv'; intros H; try (by vm_compute in H; discriminate H);
    (split; [done|]);
    cbv [logger_prefix Green Yellow Red ESC String.append] in H;
    fold String.append in H;
    repeat (injection H as H);
    by apply append_inj_r in H.
Qed.

Lemma prefix_identifies_line_witness :
  logger_prefix ERROR "k3x9" = logger_prefix ERROR "k3x9" /\
  (ERROR = ERROR /\ "k3x9" = "k3x9").
Proof.
  split; [reflexivity|].
  exact (prefix_identifies_line ERROR ERROR "k3x9" "k3x9" eq_refl).
Defined.

(** ** Start-up *)

Section StartUp.

Variable F : string -> string -> context_Context -> string -> Organization + error.

(** X9. [main] gets as far as [e.Start] exactly when the four variables
    are set (to any text, the empty one too), the organization is found
    and it has an id.  The server then uses the host and token of the
    environment for the client, the organization and bucket of the
    environment for the writes, and the id of the organization found. *)
Theorem main_serves_iff environ srv :
  snd (main F environ) = Returned srv <->
  exists token host org bucket o,
    environ !! "DOCKER_INFLUXDB_TOKEN" = Some token /\
    environ !! "DOCKER_INFLUXDB_HOST" = Some host /\
    environ !! "DOCKER_INFLUXDB_ORGANIZATION" = Some org /\
    environ !! "DOCKER_INFLUXDB_BUCKET" = Some bucket /\
    F host token Background org = inl o /\
    Id o = Some (organizationID srv) /\
    srv = mkServer host token (organizationID srv) org bucket.
Proof.
  unfold main, safeEnv, mbind, Proc_bind, proc_bind, mret, Proc_ret, proc_ret, did, log_Fatalf.
  split.
  - destruct (environ !! "DOCKER_INFLUXDB_TOKEN") as [token|]; [|done].
    destruct (environ !! "DOCKER_INFLUXDB_HOST") as [host|]; [|done].
    destruct (environ !! "DOCKER_INFLUXDB_ORGANIZATION") as [org|]; [|done].
    destruct (environ !! "DOCKER_INFLUXDB_BUCKET") as [bucket|]; [|done].
    simpl. destruct (F host token Background org) as [o|err] eqn:HF; [|done].
    simpl. destruct (Id o) as [id|] eqn:Hid; [|done].
    simpl. intros [= <-]. by exists token, host, org, bucket, o.
  - intros (token & host & org & bucket & o & -> & -> & -> & -> & HF & Hid & Hsrv).
    simpl. rewrite HF. simpl. rewrite Hid. simpl. by rewrite Hsrv at 2.
Qed.

(** X10. When a variable is not set, the process exits with status 1 on
    the first one that is missing, in the order token, host, organization,
    bucket; the one fatal line names that variable, and nothing else has
    happened by then: no client is made and no organization is looked up. *)
Theorem missing_variable_is_fatal environ v :
  first_missing environ = Some v ->
  main F environ = ([SFatal "Missing environment variable %s" [SString v]], Exited 1).
Proof.
  unfold first_missing, variables, main, safeEnv, mbind, Proc_bind, proc_bind,
    mret, Proc_ret, proc_ret, log_Fatalf. simpl.
  destruct (environ !! "DOCKER_INFLUXDB_TOKEN"); [|by intros [= <-]].
  destruct (environ !! "DOCKER_INFLUXDB_HOST"); [|by intros [= <-]].
  destruct (environ !! "DOCKER_INFLUXDB_ORGANIZATION"); [|by intros [= <-]].
  destruct (environ !! "DOCKER_INFLUXDB_BUCKET"); [|by intros [= <-]].
  done.
Qed.

(** X11. When the four variables are set and the lookup of the
    organization fails, the failure is logged with the name of the
    organization and the error, and the process exits with status 1: no
    write API is made, no route is registered and the server is not
    started. *)
Theorem lookup_failure_is_fatal environ token host org bucket err :
  environ !! "DOCKER_INFLUXDB_TOKEN" = Some token ->
  environ !! "DOCKER_INFLUXDB_HOST" = Some host ->
  environ !! "DOCKER_INFLUXDB_ORGANIZATION" = Some org ->
  environ !! "DOCKER_INFLUXDB_BUCKET" = Some bucket ->
  F host token Background org = inr err ->
  main F environ =
    ([ SUse; SNewClient host token; SFindOrganizationByName Background org;
       SPrintf "%sERROR: Failed to lookup organization named %q: %v%s"
         [SString Red; SString org; SError err; SString Reset];
       SFatal "Cannot start server without InfluxDB organization access" [] ],
     Exited 1).
Proof.
  intros Ht Hh Ho Hb HF.
  unfold main, safeEnv, mbind, Proc_bind, proc_bind, mret, Proc_ret, proc_ret, did, log_Fatalf.
  rewrite Ht, Hh, Ho, Hb. simpl. by rewrite HF.
Qed.

End StartUp.

Lemma main_serves_iff_witness :
  snd (main find_org_ok environ_ok)
    = Returned (mkServer "http://endon-db:8086" "secret" "0123456789abcdef"
                  "manifold" "errors") /\
  fst (main find_org_ok environ_ok) =
    [ SUse; SNewClient "http://endon-db:8086" "secret";
      SFindOrganizationByName Background "manifold";
      SPrintf ("Organization found: %+v" +:+ LF)
        [SOrganization (mkOrganization (Some "0123456789abcdef") "manifold")];
      SPrintf ("Organization ID: %s" +:+ LF) [SString "0123456789abcdef"];
      SWriteAPIBlocking "manifold" "errors"; SPOST "/"; SStart ":80" ].
Proof.
  split; [|by vm_compute].
  apply (main_serves_iff find_org_ok environ_ok).
  exists "secret", "http://endon-db:8086", "manifold", "errors",
    (mkOrganization (Some "0123456789abcdef") "manifold").
  by vm_compute.
Defined.

Lemma missing_variable_is_fatal_witness :
  first_missing (delete "DOCKER_INFLUXDB_HOST" (delete "DOCKER_INFLUXDB_BUCKET" environ_ok))
    = Some "DOCKER_INFLUXDB_HOST" /\
  main find_org_ok (delete "DOCKER_INFLUXDB_HOST" (delete "DOCKER_INFLUXDB_BUCKET" environ_ok))
    = ([SFatal "Missing environment variable %s" [SString "DOCKER_INFLUXDB_HOST"]], Exited 1).
Proof.
  assert (H : first_missing
                (delete "DOCKER_INFLUXDB_HOST" (delete "DOCKER_INFLUXDB_BUCKET" environ_ok))
              = Some "DOCKER_INFLUXDB_HOST") by (by vm_compute).
  split; [exact H|].
  exact (missing_variable_is_fatal find_org_ok _ _ H).
Defined.

Lemma lookup_failure_is_fatal_witness :
  find_org_down "http://endon-db:8086" "secret" Background "manifold"
    = inr (StoreError "connection refused") /\
  snd (main find_org_down environ_ok) = Exited 1.
Proof.
  split; [reflexivity|].
  rewrite (lookup_failure_is_fatal find_org_down environ_ok "secret" "http://endon-db:8086"
             "manifold" "errors" (StoreError "connection refused"));
    by vm_compute.
Defined.

(** ** More on the decoder *)

Lemma decode_member_field f st m :
  Json.get_field f (Json.decode_member st m).1
  = default (Json.get_field f st.1) (string_for f m).
Proof.
  destruct st as [r err], m as [k v]. unfold string_for. simpl.
  destruct (Json.field_of_key k) as [g|]; [|done].
  destruct v; try done. simpl.
  case_decide as Hfg; destruct f, g; try done; by destruct Hfg.
Qed.

Lemma decode_fold_field f ms st :
  Json.get_field f (fold_left Json.decode_member ms st).1
  = default (Json.get_field f st.1) (last_string f ms).
Proof.
  revert st. induction ms as [|m ms IH]; intros st; [done|].
  simpl. rewrite IH. destruct (last_string f ms); [done|].
  apply decode_member_field.
Qed.

Lemma decode_member_error st m :
  (Json.decode_member st m).2 = None <-> st.2 = None /\ well_typed m = true.
Proof.
  destruct st as [r err], m as [k v]. unfold well_typed. simpl.
  destruct (Json.field_of_key k); [|by intuition].
  destruct v, err; simpl; by intuition.
Qed.

Lemma decode_fold_error ms st :
  (fold_left Json.decode_member ms st).2 = None <->
  st.2 = None /\ forallb well_typed ms = true.
Proof.
  revert st. induction ms as [|m ms IH]; intros st; simpl; [by intuition|].
  rewrite IH, decode_member_error, andb_true_iff. by intuition.
Qed.

(** X12. How an object is decoded into the report: each field gets the
    last string that a member gives it, under any spelling of its name that
    the decoder matches, and stays empty when no member gives it one
    (members that are null, or whose key names no field, change nothing);
    the decoding succeeds exactly when every member that names a field is a
    string or null. *)
Theorem object_decoding data ms :
  Json.parse data = Some (Json.JObject ms) ->
  (forall f, Json.get_field f (Json.Unmarshal data zero_report).1
             = default "" (last_string f ms)) /\
  ((Json.Unmarshal data zero_report).2 = None <-> forallb well_typed ms = true).
Proof.
  intros Hp. unfold Json.Unmarshal, Json.decode_members. rewrite Hp. split.
  - intros f. rewrite decode_fold_field. by destruct f.
  - rewrite decode_fold_error. by intuition.
Qed.

(** X13. A body that is JSON of the wrong shape is refused like one that is
    not JSON at all: when the top-level value is an array, a string, a
    number or a boolean, or when a member that names a field of the report
    is not a string or null, the response is 400 with the message of the
    decoding step, and no point is written. *)
Theorem wrong_shape_rejected cc w data v :
  content_type cc = "application/json" ->
  Body (request cc) = MkReader data None ->
  Json.parse data = Some v ->
  match v with
  | Json.JNull => False
  | Json.JObject ms => forallb well_typed ms = false
  | _ => True
  end ->
  fst (POST cc w) = mkResponse StatusBadRequest msg_unmarshal /\
  write_attempts (events_of Json.Unmarshal cc w) = [] /\
  persisted (snd (POST cc w)) = persisted w.
Proof.
  intros Hct Hb Hp Hv.
  assert (Herr : exists r e, Json.Unmarshal data zero_report = (r, Some e)).
  { destruct (Json.Unmarshal data zero_report) as [r [e|]] eqn:Hu; [by eauto|].
    exfalso. unfold Json.Unmarshal, Json.decode_members in Hu. rewrite Hp in Hu.
    destruct v; try done.
    assert (H : (fold_left Json.decode_member members (zero_report, None)).2 = None)
      by (by rewrite Hu).
    apply decode_fold_error in H. destruct H as [_ H]. congruence. }
  destruct Herr as (r & e & Hu). unfold POST.
  pose proof (run_decode_error Json.Unmarshal cc w data r e Hct Hb Hu) as Hrun.
  by rewrite (events_of_run _ _ _ _ _ _ Hrun eq_refl), Hrun.
Qed.

Lemma wrong_shape_rejected_witness :
  Json.parse (object_text [("service", "7"); ("endpoint", lit "/v1/x"); ("error", lit "timeout")])
    = Some (Json.JObject [("service", Json.JNumber "7"); ("endpoint", Json.JString "/v1/x");
                          ("error", Json.JString "timeout")]) /\
  fst (POST (post JSON_TYPE
               (object_text [("service", "7"); ("endpoint", lit "/v1/x");
                             ("error", lit "timeout")])) world0)
    = mkResponse StatusBadRequest msg_unmarshal.
Proof.
  assert (Hp : Json.parse (object_text [("service", "7"); ("endpoint", lit "/v1/x");
                                        ("error", lit "timeout")])
               = Some (Json.JObject [("service", Json.JNumber "7");
                                     ("endpoint", Json.JString "/v1/x");
                                     ("error", Json.JString "timeout")]))
    by (by vm_compute).
  split; [exact Hp|].
  apply (wrong_shape_rejected
           (post JSON_TYPE (object_text [("service", "7"); ("endpoint", lit "/v1/x");
                                         ("error", lit "timeout")]))
           world0 _ _ (eq_refl : content_type _ = _) eq_refl Hp). by vm_compute.
Defined.

Lemma object_decoding_witness :
  Json.parse (object_text [("Service", lit "a"); ("service", "null"); ("SERVICE", lit "b")])
    = Some (Json.JObject [("Service", Json.JString "a"); ("service", Json.JNull);
                          ("SERVICE", Json.JString "b")]) /\
  Service (Json.Unmarshal
             (object_text [("Service", lit "a"); ("service", "null"); ("SERVICE", lit "b")])
             zero_report).1 = "b".
Proof.
  assert (Hp : Json.parse (object_text [("Service", lit "a"); ("service", "null");
                                        ("SERVICE", lit "b")])
               = Some (Json.JObject [("Service", Json.JString "a"); ("service", Json.JNull);
                                     ("SERVICE", Json.JString "b")])) by (by vm_compute).
  split; [exact Hp|].
  exact (proj1 (object_decoding _ _ Hp) Json.FService).
Defined.

(** *** Keys in any case *)

Lemma lower_char_spec c :
  (Json.between 65 90 c = true -> Json.chr (Json.code c + 32) = lower_char c) /\
  (Json.between 65 90 c = false -> lower_char c = c) /\
  ((Json.code (lower_char c) <? 128) = true -> (Json.code c <? 128) = true).
Proof.
  destruct c as [[] [] [] [] [] [] [] []]; by vm_compute.
Qed.

Lemma fold_name_cons c rest :
  Json.fold_name (String c rest) =
    if Json.between 65 90 c then String (Json.chr (Json.code c + 32)) (Json.fold_name rest)
    else
      match rest with
      | String c1 rest1 =>
          if (Json.code c =? 197) && (Json.code c1 =? 191)
          then String "s" (Json.fold_name rest1)
          else
            match rest1 with
            | String c2 rest2 =>
                if (Json.code c =? 226) && (Json.code c1 =? 132) && (Json.code c2 =? 170)
                then String "k" (Json.fold_name rest2)
                else String c (Json.fold_name rest)
            | EmptyString => String c (Json.fold_name rest)
            end
      | EmptyString => String c (Json.fold_name rest)
      end.
Proof. reflexivity. Qed.

Lemma fold_name_ascii s : ascii_text s = true -> Json.fold_name s = to_lower s.
Proof.
  induction s as [|c rest IH]; [done|].
  intros H. simpl in H. apply andb_true_iff in H. destruct H as [Hc Hrest].
  rewrite fold_name_cons. simpl to_lower.
  destruct (lower_char_spec c) as (Hup & Hlow & _).
  destruct (Json.between 65 90 c) eqn:Hb.
  - by rewrite Hup, IH.
  - rewrite Hlow by done.
    assert (H197 : (Json.code c =? 197) = false) by (apply Z.ltb_lt in Hc; lia).
    assert (H226 : (Json.code c =? 226) = false) by (apply Z.ltb_lt in Hc; lia).
    rewrite H197, H226. simpl.
    destruct rest as [|c1 [|c2 rest2]]; by rewrite IH.
Qed.

Lemma to_lower_ascii s : ascii_text (to_lower s) = true -> ascii_text s = true.
Proof.
  induction s as [|c rest IH]; [done|].
  simpl. rewrite !andb_true_iff. intros [Hc Hrest].
  split; [by apply lower_char_spec | by apply IH].
Qed.

(** X14. The keys of the body are matched to the fields of the report
    whatever their capitals: a key that is the name of a field once its
    ASCII capitals are made small names that field. *)
Theorem keys_match_in_any_case k f :
  to_lower k = Json.field_name f -> Json.field_of_key k = Some f.
Proof.
  intros Hk. unfold Json.field_of_key.
  rewrite fold_name_ascii.
  - rewrite Hk. by destruct f.
  - apply to_lower_ascii. rewrite Hk. by destruct f.
Qed.

Lemma keys_match_in_any_case_witness :
  to_lower "TraceBack" = Json.field_name Json.FTraceback /\
  Json.field_of_key "TraceBack" = Some Json.FTraceback.
Proof.
  split; [by vm_compute|].
  apply (keys_match_in_any_case "TraceBack" Json.FTraceback). by vm_compute.
Defined.

(** *** Reports written as they are *)

Lemma string_app_assoc (a b c : string) : (a +:+ b) +:+ c = a +:+ (b +:+ c).
Proof.
  induction a as [|x a IH]; [done|].
  change (String x ((a +:+ b) +:+ c) = String x (a +:+ (b +:+ c))). by rewrite IH.
Qed.

Lemma of_rev_cons c acc : Json.of_rev (c :: acc) = Json.of_rev acc +:+ String c "".
Proof.
  unfold Json.of_rev. simpl rev.
  induction (rev acc) as [|x l IH]; [done|].
  simpl. change (String x (String.string_of_list_ascii l) +:+ String c "")
    with (String x (String.string_of_list_ascii l +:+ String c "")).
  by rewrite IH.
Qed.

Lemma plain_char_step c acc :
  plain_char c = true ->
  Json.lex_step (Json.LStr acc) c = Some (Json.LStr (c :: acc), []).
Proof.
  unfold plain_char, Json.lex_step. rewrite !andb_true_iff, !negb_true_iff.
  intros [[[H32 _] H34] H92]. rewrite H34.
  assert (Hbs : Ascii.eqb c "\"%char = false).
  { apply Ascii.eqb_neq. intros ->. by vm_compute in H92. }
  rewrite Hbs. apply Z.leb_le in H32.
  destruct (Json.code c <? 32) eqn:Hlt; [apply Z.ltb_lt in Hlt; lia | done].
Qed.

Lemma unquote_plain s : plain_text s = true -> Json.unquote s = s.
Proof.
  induction s as [|c rest IH]; [done|].
  simpl plain_text. rewrite andb_true_iff. intros [Hc Hrest].
  unfold plain_char in Hc. rewrite !andb_true_iff, !negb_true_iff in Hc.
  destruct Hc as [[[_ H128] _] H92].
  assert (Hbs : Ascii.eqb c "\"%char = false).
  { apply Ascii.eqb_neq. intros ->. by vm_compute in H92. }
  change (Json.unquote (String c rest))
    with (if Ascii.eqb c "\"%char then
            match rest with
            | String "u" (String a (String b (String x (String d rest')))) =>
                let r := Json.hex4 a b x d in
                if Json.is_surrogate r then
                  match rest' with
                  | String "\" (String "u" (String a2 (String b2 (String x2 (String d2 rest''))))) =>
                      let dec := Json.utf16_DecodeRune r (Json.hex4 a2 b2 x2 d2) in
                      if dec =? Json.RuneError
                      then Json.encode_rune Json.RuneError +:+ Json.unquote rest'
                      else Json.encode_rune dec +:+ Json.unquote rest''
                  | _ => Json.encode_rune Json.RuneError +:+ Json.unquote rest'
                  end
                else Json.encode_rune r +:+ Json.unquote rest'
            | String e rest' =>
                match Json.unescape e with
                | Some x => String x (Json.unquote rest')
                | None => EmptyString
                end
            | EmptyString => EmptyString
            end
          else if Json.code c <? 128 then String c (Json.unquote rest)
          else
            match Json.utf8_size c rest, rest with
            | 2%nat, String c1 r1 => String c (String c1 (Json.unquote r1))
            | 3%nat, String c1 (String c2 r2) =>
                String c (String c1 (String c2 (Json.unquote r2)))
            | 4%nat, String c1 (String c2 (String c3 r3)) =>
                String c (String c1 (String c2 (String c3 (Json.unquote r3))))
            | _, _ => Json.encode_rune Json.RuneError +:+ Json.unquote rest
            end).
  by rewrite Hbs, H128, IH.
Qed.

Lemma lex_cons st c rest :
  Json.lex st (String c rest) =
    match Json.lex_step st c with
    | Some (st', toks) =>
        match Json.lex st' rest with
        | Some more => Some (toks ++ more)
        | None => None
        end
    | None => None
    end.
Proof. reflexivity. Qed.

(** A string literal of plain characters is one token, the text itself. *)
Lemma lex_in_string s acc rest :
  plain_text s = true ->
  Json.lex (Json.LStr acc) (s +:+ QUOTE +:+ rest) =
    match Json.lex Json.LStart rest with
    | Some more => Some (Json.TString (Json.unquote (Json.of_rev acc +:+ s)) :: more)
    | None => None
    end.
Proof.
  revert acc. induction s as [|c s IH]; intros acc Hs.
  - change ("" +:+ QUOTE +:+ rest) with (String (ascii_of_nat 34) rest).
    replace (Json.of_rev acc +:+ "") with (Json.of_rev acc); [done|].
    induction (Json.of_rev acc) as [|x a IHa]; [done|].
    change (String x a +:+ "") with (String x (a +:+ "")). by rewrite <- IHa.
  - simpl in Hs. apply andb_true_iff in Hs. destruct Hs as [Hc Hs].
    change (String c s +:+ QUOTE +:+ rest) with (String c (s +:+ QUOTE +:+ rest)).
    rewrite lex_cons, (plain_char_step c acc Hc), (IH (c :: acc) Hs).
    rewrite of_rev_cons, string_app_assoc.
    change (String c "" +:+ s) with (String c s).
    by destruct (Json.lex Json.LStart rest).
Qed.

Lemma lex_lit s rest :
  plain_text s = true ->
  Json.lex Json.LStart (lit s +:+ rest) =
    match Json.lex Json.LStart rest with
    | Some more => Some (Json.TString s :: more)
    | None => None
    end.
Proof.
  intros Hs. unfold lit. rewrite !string_app_assoc.
  change (QUOTE +:+ s +:+ QUOTE +:+ rest)
    with (String (ascii_of_nat 34) (s +:+ QUOTE +:+ rest)).
  rewrite lex_cons.
  change (Json.lex_step Json.LStart (ascii_of_nat 34)) with (Some (Json.LStr [], @nil Json.token)).
  cbv beta iota. rewrite (lex_in_string s [] rest Hs).
  change (Json.of_rev [] +:+ s) with s. rewrite (unquote_plain s Hs).
  by destruct (Json.lex Json.LStart rest).
Qed.

Lemma lex_punct c t rest :
  Json.start_step c = Some (Json.LStart, [t]) ->
  Json.lex Json.LStart (String c rest) = (cons t) <$> Json.lex Json.LStart rest.
Proof.
  intros Hc. rewrite lex_cons. simpl Json.lex_step. rewrite Hc.
  by destruct (Json.lex Json.LStart rest).
Qed.

Lemma lex_lit_fmap s rest :
  plain_text s = true ->
  Json.lex Json.LStart (lit s +:+ rest) = (cons (Json.TString s)) <$> Json.lex Json.LStart rest.
Proof.
  intros Hs. rewrite (lex_lit s rest Hs). by destruct (Json.lex Json.LStart rest).
Qed.

Ltac lex_object :=
  repeat first
    [ rewrite lex_lit_fmap by done
    | match goal with
      | |- context [Json.lex Json.LStart ("{" +:+ ?r)] =>
          change ("{" +:+ r) with (String "{" r); rewrite (lex_punct "{" Json.TLBrace) by done
      | |- context [Json.lex Json.LStart (":" +:+ ?r)] =>
          change (":" +:+ r) with (String ":" r); rewrite (lex_punct ":" Json.TColon) by done
      | |- context [Json.lex Json.LStart ("," +:+ ?r)] =>
          change ("," +:+ r) with (String "," r); rewrite (lex_punct "," Json.TComma) by done
      end ].

Lemma parse_report_text r :
  plain_text (Service r) = true -> plain_text (Endpoint r) = true ->
  plain_text (Error r) = true -> plain_text (Traceback r) = true ->
  Json.parse (report_text r) =
    Some (Json.JObject [("service", Json.JString (Service r));
                        ("endpoint", Json.JString (Endpoint r));
                        ("error", Json.JString (Error r));
                        ("traceback", Json.JString (Traceback r))]).
Proof.
  intros Hs He Hr Ht.
  unfold Json.parse, report_text, object_text, members_text.
  rewrite !string_app_assoc. lex_object.
  reflexivity.
Qed.

Lemma parse_short_report_text r :
  plain_text (Service r) = true -> plain_text (Endpoint r) = true ->
  plain_text (Error r) = true ->
  Json.parse (short_report_text r) =
    Some (Json.JObject [("service", Json.JString (Service r));
                        ("endpoint", Json.JString (Endpoint r));
                        ("error", Json.JString (Error r))]).
Proof.
  intros Hs He Hr.
  unfold Json.parse, short_report_text, object_text, members_text.
  rewrite !string_app_assoc. lex_object.
  reflexivity.
Qed.

(** X15. A report whose four texts are plain (ASCII, no control
    character, quote or backslash) and are written as they are in a JSON
    object decodes to that very report, and so does the object without the
    traceback key when the traceback is empty.  Posted with the JSON
    Content-Type to a store that is up, such a report with its three
    required texts not empty is answered 200 and persisted as the point of
    the spec, at the time of the run. *)
Theorem plain_report_round_trip r w :
  plain_text (Service r) = true -> plain_text (Endpoint r) = true ->
  plain_text (Error r) = true -> plain_text (Traceback r) = true ->
  Json.Unmarshal (report_text r) zero_report = (r, None) /\
  (Traceback r = "" -> Json.Unmarshal (short_report_text r) zero_report = (r, None)) /\
  (Service r <> "" -> Endpoint r <> "" -> Error r <> "" -> store_fault w = None ->
   fst (POST (post JSON_TYPE (report_text r)) w) = mkResponse StatusOK msg_ok /\
   persisted (snd (POST (post JSON_TYPE (report_text r)) w))
     = persisted w ++ [stored_point r (clock w)]).
Proof.
  intros Hs He Hr Ht.
  assert (Hu : Json.Unmarshal (report_text r) zero_report = (r, None)).
  { unfold Json.Unmarshal. rewrite parse_report_text by done. by destruct r. }
  split_and!; [done | |].
  - intros Hempty. unfold Json.Unmarshal. rewrite parse_short_report_text by done.
    destruct r. simpl in *. by subst.
  - intros Hs' He' Hr' Hup.
    assert (Hv : valid Json.Unmarshal (post JSON_TYPE (report_text r)) r).
    { split; [by vm_compute|]. split; [by exists (report_text r)|done]. }
    destruct (valid_run Json.Unmarshal _ r w Hv) as (res & _ & _ & Hres & Hresp & Hp).
    rewrite Hup in Hres. simpl in Hres. subst res. done.
Qed.

Lemma plain_report_round_trip_witness :
  plain_text "payments api" = true /\
  Json.Unmarshal (report_text (mkReport "payments api" "/v1/charge" "timeout after 30s" ""))
    zero_report = (mkReport "payments api" "/v1/charge" "timeout after 30s" "", None).
Proof.
  assert (H1 : plain_text "payments api" = true) by (vm_compute; reflexivity).
  assert (H2 : plain_text "/v1/charge" = true) by (vm_compute; reflexivity).
  assert (H3 : plain_text "timeout after 30s" = true) by (vm_compute; reflexivity).
  assert (H4 : plain_text "" = true) by reflexivity.
  split; [exact H1|].
  exact (proj1 (plain_report_round_trip
                  (mkReport "payments api" "/v1/charge" "timeout after 30s" "") world0
                  H1 H2 H3 H4)).
Defined.

(** * The load test *)

Lemma starts_with_spec t s :
  K6.starts_with t s = true <-> exists post, s = t ++ post.
Proof.
  revert s. induction t as [|a t IH]; intros s; simpl.
  - split; [by exists s | done].
  - destruct s as [|b s]; [split; [done | by intros [post ?]]|].
    rewrite andb_true_iff, N.eqb_eq, IH. split.
    + intros [-> [post ->]]. by exists post.
    + intros [post [= -> ->]]. split; [done | by exists post].
Qed.

Lemma includes_spec s t :
  K6.includes s t = true <-> exists pre post, s = pre ++ t ++ post.
Proof.
  induction s as [|c s IH]; simpl; rewrite orb_true_iff, starts_with_spec.
  - split.
    + intros [[post H]|?]; [|done]. by exists [], post.
    + intros (pre & post & H). left. destruct pre; [by exists post|done].
  - rewrite IH. split.
    + intros [[post H]|(pre & post & ->)]; [by exists [], post|].
      by exists (c :: pre), post.
    + intros (pre & post & H). destruct pre as [|x pre]; [left; by exists post|].
      right. injection H as -> ->. by exists pre, post.
Qed.

Lemma found_nonempty text :
  (0 <? length (K6.foundStopTokens text))%nat = true <->
  exists tok, In tok K6.COMPLETION_INDICATORS /\ K6.includes text tok = true.
Proof.
  unfold K6.foundStopTokens.
  set (found := List.filter (fun token => K6.includes text token) K6.COMPLETION_INDICATORS).
  assert (Hfound : forall tok, In tok found <->
            In tok K6.COMPLETION_INDICATORS /\ K6.includes text tok = true)
    by (intros tok; apply filter_In).
  clearbody found. split.
  - destruct found as [|tok l]; [done|]. intros _.
    exists tok. apply Hfound. by left.
  - intros (tok & Htok). apply Hfound in Htok. by destruct found.
Qed.

Lemma valid_response_spec status text :
  K6.isValidResponse status text = true <->
  status = 200 /\
  ((50 < length text)%nat \/
   exists tok pre post, In tok K6.COMPLETION_INDICATORS /\ text = pre ++ tok ++ post).
Proof.
  unfold K6.isValidResponse.
  rewrite !andb_true_iff, orb_true_iff, Z.eqb_eq, found_nonempty, !Nat.ltb_lt.
  split.
  - intros [[Hst _] [(tok & Hin & Hinc)|Hlen]]; (split; [done|]).
    + right. apply includes_spec in Hinc. destruct Hinc as (pre & post & ->).
      by exists tok, pre, post.
    + by left.
  - intros [Hst [Hlen|(tok & pre & post & Hin & ->)]].
    + split; [split; [done | lia] | by right].
    + split; [split; [done|] |].
      * rewrite !length_app.
        assert (0 < length tok)%nat; [|lia].
        simpl in Hin. repeat (destruct Hin as [<-|Hin]); simpl; try lia.
      * left. exists tok. split; [done|]. apply includes_spec. by exists pre, post.
Qed.

(** X16. A response passes the check of the load test exactly when its
    status is 200 and its text either is longer than 50 units or holds one
    of the six completion indicators somewhere.  The test that the text is
    not empty adds nothing, since no indicator is empty. *)
Theorem valid_response_iff status text :
  K6.isValidResponse status text = true <->
  status = 200 /\
  ((50 < length text)%nat \/
   exists tok pre post, In tok K6.COMPLETION_INDICATORS /\ text = pre ++ tok ++ post).
Proof. apply valid_response_spec. Qed.

(** X17. The check is monotone in the text: a response that passes still
    passes when more text comes before or after its text. *)
Theorem valid_response_grows status text pre post :
  K6.isValidResponse status text = true ->
  K6.isValidResponse status (pre ++ text ++ post) = true.
Proof.
  rewrite !valid_response_spec. intros [Hst H]. split; [done|].
  destruct H as [Hlen|(tok & p & q & Hin & ->)].
  - left. rewrite !length_app. lia.
  - right. exists tok, (pre ++ p), (q ++ post). split; [done|].
    by rewrite <- !(assoc_L (++)).
Qed.

Lemma valid_response_iff_witness :
  K6.isValidResponse 200 (K6.js "The answer is: 42") = true /\
  200 = 200 /\
  ((50 < length (K6.js "The answer is: 42"))%nat \/
   exists tok pre post,
     In tok K6.COMPLETION_INDICATORS /\ K6.js "The answer is: 42" = pre ++ tok ++ post).
Proof.
  assert (H : K6.isValidResponse 200 (K6.js "The answer is: 42") = true) by (by vm_compute).
  split; [exact H|].
  exact (proj1 (valid_response_iff 200 (K6.js "The answer is: 42")) H).
Defined.

Lemma valid_response_grows_witness :
  K6.isValidResponse 200 (K6.js "[DONE]") = true /\
  K6.isValidResponse 200 (K6.js "so " ++ K6.js "[DONE]" ++ K6.js " it is") = true.
Proof.
  assert (H : K6.isValidResponse 200 (K6.js "[DONE]") = true) by (by vm_compute).
  split; [exact H|].
  exact (valid_response_grows 200 (K6.js "[DONE]") (K6.js "so ") (K6.js " it is") H).
Defined.

(** ** The questions *)

Lemma split_on_nonempty sep s : K6.split_on sep s <> [].
Proof.
  destruct s as [|c s]; simpl; [done|].
  destruct (c =? sep)%N; [done|]. by destruct (K6.split_on sep s).
Qed.

(** The pieces of a split hold no separator, and only units of the text. *)
Lemma split_on_pieces sep s piece :
  In piece (K6.split_on sep s) ->
  ~ In sep piece /\ (forall c, In c piece -> In c s).
Proof.
  revert piece. induction s as [|c s IH]; intros piece; simpl.
  - intros [<-|[]]. split; [intros [] | intros x []].
  - destruct (N.eqb_spec c sep) as [->|Hne].
    + intros [<-|Hin]; [split; [intros [] | intros x []]|].
      destruct (IH piece Hin) as [H1 H2]. split; [done|]. intros x Hx. right. by apply H2.
    + destruct (K6.split_on sep s) as [|h t] eqn:Hs; [by destruct (split_on_nonempty sep s)|].
      intros [<-|Hin].
      * destruct (IH h (or_introl eq_refl)) as [H1 H2]. split.
        -- intros [Hc|Hh]; [by destruct Hne | by destruct H1].
        -- intros x [<-|Hx]; [by left | right; by apply H2].
      * destruct (IH piece (or_intror Hin)) as [H1 H2]. split; [done|].
        intros x Hx. right. by apply H2.
Qed.

Lemma split_on_whole sep s : ~ In sep s -> K6.split_on sep s = [s].
Proof.
  induction s as [|c s IH]; [done|]. simpl. intros H.
  destruct (N.eqb_spec c sep) as [->|Hne]; [by destruct H; left|].
  rewrite IH; [done|]. intros Hin. apply H. by right.
Qed.

Lemma split_on_first sep a b :
  ~ In sep a -> K6.split_on sep (a ++ sep :: b) = a :: K6.split_on sep b.
Proof.
  induction a as [|c a IH]; simpl; intros H.
  - by rewrite N.eqb_refl.
  - destruct (N.eqb_spec c sep) as [->|Hne]; [by destruct H; left|].
    rewrite IH; [done|]. intros Hin. apply H. by right.
Qed.

(** X18. Every question the load test loads is a text that is not empty
    and holds neither a bar nor a line feed; there are at most as many
    questions as the file has lines. *)
Theorem questions_well_formed data :
  Forall (fun q => exists text, q = Some text /\ text <> [] /\
                                ~ In K6.BAR text /\ ~ In K6.LF text)
    (K6.questions data) /\
  (length (K6.questions data) <= length (K6.split_on K6.LF data))%nat.
Proof.
  split.
  - apply List.Forall_forall. intros q Hq. unfold K6.questions in Hq.
    apply filter_In in Hq. destruct Hq as [Hin Htruthy].
    apply in_map_iff in Hin. destruct Hin as (line & Hq & Hline).
    destruct q as [[|c text]|]; try done. exists (c :: text).
    unfold K6.question_of in Hq.
    assert (Hpiece : In (c :: text) (K6.split_on K6.BAR line)).
    { apply list_elem_of_In. by apply list_elem_of_lookup_2 in Hq. }
    destruct (split_on_pieces _ _ _ Hpiece) as [Hbar Hsub].
    destruct (split_on_pieces _ _ _ Hline) as [Hlf _].
    split_and!; try done. intros Hin. apply Hlf. by apply Hsub.
  - unfold K6.questions.
    etransitivity; [apply List.filter_length_le|]. by rewrite length_map.
Qed.

(** X19. The question of a line is the text between its first bar and its
    second bar, or the end of the line when there is no second bar; a line
    without a bar has none. *)
Theorem question_is_second_field first text rest :
  ~ In K6.BAR first -> ~ In K6.BAR text ->
  K6.question_of (first ++ K6.BAR :: text) = Some text /\
  K6.question_of (first ++ K6.BAR :: text ++ K6.BAR :: rest) = Some text /\
  K6.question_of first = None.
Proof.
  intros Hf Ht. unfold K6.question_of. split_and!.
  - by rewrite split_on_first, split_on_whole.
  - by rewrite split_on_first, split_on_first.
  - by rewrite split_on_whole.
Qed.

Lemma question_is_second_field_witness :
  ~ In K6.BAR (K6.js "17") /\
  K6.question_of (K6.js "17" ++ K6.BAR :: K6.js "What is 2+2?") = Some (K6.js "What is 2+2?").
Proof.
  assert (H1 : ~ In K6.BAR (K6.js "17")) by (vm_compute; intuition discriminate).
  assert (H2 : ~ In K6.BAR (K6.js "What is 2+2?")) by (vm_compute; intuition discriminate).
  split; [exact H1|].
  exact (proj1 (question_is_second_field (K6.js "17") (K6.js "What is 2+2?") [] H1 H2)).
Defined.
